(** * netopeer2-server: session lifecycle and datastore locks

    A shallow embedding of [src/server/main.c]: the signal handler, the
    datastore-lock cleanup, the binding of a NETCONF session to a sysrepo
    session ([connect_ds] / [free_ds]), the processing thread
    ([process_loop]) and the accept loop and restart logic of [main].

    Pointers are [option nat] ([None] is [NULL]).  The process state is one
    record, [world], holding the program's globals ([control], the static
    [quit] of the handler, [dslock], the poll structure [np2srv.nc_ps])
    together with the objects the libraries keep for the program (the
    [calloc]'ed [np2_sessions], the sysrepo sessions that are open, the
    libnetconf2 sessions that are alive) and a trace of the calls made.
    Functions that dereference a pointer return [None] when the pointer does
    not designate a live object (undefined behaviour in C). *)

From stdpp Require Import base option list gmap fin_sets.
From Stdlib Require Import ZArith Lia.

Local Open Scope Z_scope.

Module Netopeer.

(** ** Data model *)

Definition ptr := option nat.
Definition NULL : ptr := None.

(** [enum LOOPCTRL] *)
Inductive LOOPCTRL := LOOP_CONTINUE | LOOP_RESTART | LOOP_STOP.

#[global] Instance LOOPCTRL_eq_dec : EqDecision LOOPCTRL.
Proof. solve_decision. Defined.

(** [struct np2srv_dslock]: one slot per datastore, each [NULL] or the
    NETCONF session holding the lock. *)
Record np2srv_dslock := Dslock {
  running : ptr;
  startup : ptr;
  candidate : ptr
}.

Inductive sr_datastore_t := SR_DS_STARTUP | SR_DS_RUNNING | SR_DS_CANDIDATE.

(** [struct np2_sessions]: the sysrepo session bound to a NETCONF session. *)
Record np2_sessions := Np2Sessions {
  ncs : ptr;
  srs : ptr;
  ds : sr_datastore_t;
  opts : Z
}.

(** libnetconf2's session object, as far as this file reads or writes it. *)
Inductive NC_STATUS := NC_STATUS_RUNNING | NC_STATUS_INVALID.

#[global] Instance NC_STATUS_eq_dec : EqDecision NC_STATUS.
Proof. solve_decision. Defined.

Record nc_session := NcSession {
  data : ptr;
  status : NC_STATUS
}.

(** Calls recorded in the trace, oldest first. *)
Inductive event :=
| E_sr_session_start_user (rc : Z) (h : ptr)
| E_sr_session_stop (h : nat)
| E_calloc (a : ptr)
| E_free (a : nat)
| E_clean_dslock (s : ptr)
| E_nc_accept (rc : Z) (s : ptr)
| E_nc_session_set_data (s a : nat)
| E_nc_session_free (s : nat)
| E_nc_ps_add_session (s : ptr)
| E_nc_ps_poll (rc : Z)
| E_nc_ps_clear (all : Z)
| E_nc_ps_accept_ssh_channel (s : ptr)
| E_nc_thread_destroy
| E_usleep (us : Z)
| E_server_init (rc : Z)
| E_pthread_create
| E_pthread_join
| E_cleanup.

#[global] Instance event_eq_dec : EqDecision event.
Proof. solve_decision. Defined.

Record world := World {
  control : LOOPCTRL;
  quit : Z;
  dslock : np2srv_dslock;
  nc_ps : list nat;
  heap : gmap nat np2_sessions;
  sr_open : gset nat;
  nc_live : gmap nat nc_session;
  trace : list event
}.

Definition set_control (c : LOOPCTRL) (w : world) : world :=
  World c (quit w) (dslock w) (nc_ps w) (heap w) (sr_open w) (nc_live w) (trace w).
Definition set_quit (q : Z) (w : world) : world :=
  World (control w) q (dslock w) (nc_ps w) (heap w) (sr_open w) (nc_live w) (trace w).
Definition set_dslock (d : np2srv_dslock) (w : world) : world :=
  World (control w) (quit w) d (nc_ps w) (heap w) (sr_open w) (nc_live w) (trace w).
Definition set_nc_ps (l : list nat) (w : world) : world :=
  World (control w) (quit w) (dslock w) l (heap w) (sr_open w) (nc_live w) (trace w).
Definition set_heap (h : gmap nat np2_sessions) (w : world) : world :=
  World (control w) (quit w) (dslock w) (nc_ps w) h (sr_open w) (nc_live w) (trace w).
Definition set_sr_open (o : gset nat) (w : world) : world :=
  World (control w) (quit w) (dslock w) (nc_ps w) (heap w) o (nc_live w) (trace w).
Definition set_nc_live (m : gmap nat nc_session) (w : world) : world :=
  World (control w) (quit w) (dslock w) (nc_ps w) (heap w) (sr_open w) m (trace w).
Definition emit (e : event) (w : world) : world :=
  World (control w) (quit w) (dslock w) (nc_ps w) (heap w) (sr_open w) (nc_live w)
        (trace w ++ [e]).

Definition EXIT_SUCCESS : Z := 0.
Definition EXIT_FAILURE : Z := 1.
Definition SR_ERR_OK : Z := 0.
Definition SR_SESS_DEFAULT : Z := 0.

(** ** Lock registry: [np2srv_clean_dslock] *)

Definition ptr_eqb (a b : ptr) : bool := bool_decide (a = b).

(** The three tests of the source, in its order, each on the slot alone.
    The function holds [dslock_rwl] for writing from its first to its last
    statement; here it runs as one step. *)
Definition np2srv_clean_dslock (s : ptr) (w : world) : world :=
  let w := emit (E_clean_dslock s) w in
  let w :=
    if ptr_eqb (running (dslock w)) s
    then set_dslock (Dslock NULL (startup (dslock w)) (candidate (dslock w))) w
    else w in
  let w :=
    if ptr_eqb (startup (dslock w)) s
    then set_dslock (Dslock (running (dslock w)) NULL (candidate (dslock w))) w
    else w in
  let w :=
    if ptr_eqb (candidate (dslock w)) s
    then set_dslock (Dslock (running (dslock w)) (startup (dslock w)) NULL) w
    else w in
  w.

(** ** Session binding: [free_ds] *)

(** sysrepo's [sr_session_stop]: the handle is no longer open. *)
Definition sr_session_stop (h : nat) (w : world) : world :=
  emit (E_sr_session_stop h) (set_sr_open (sr_open w ∖ {[h]}) w).

(** libc's [free] on a [struct np2_sessions]. *)
Definition free (a : nat) (w : world) : world :=
  emit (E_free a) (set_heap (delete a (heap w)) w).

Definition free_ds (p : ptr) (w : world) : option world :=
  match p with
  | None => Some w
  | Some a =>
      s ← heap w !! a;
      let w := match srs s with
               | Some h => sr_session_stop h w
               | None => w
               end in
      let w := np2srv_clean_dslock (ncs s) w in
      Some (free a w)
  end.

(** ** libnetconf2 and sysrepo, as far as [main.c] relies on them *)

(** Modelled from the spec: libnetconf2's [nc_session_set_data] is not part
    of the source; it stores the pointer in the session ("associates one
    protocol session with one backing store session"). *)
Definition nc_session_set_data (n : nat) (a : nat) (w : world) : world :=
  emit (E_nc_session_set_data n a)
       (set_nc_live (alter (λ s, NcSession (Some a) (status s)) n (nc_live w)) w).

(** Modelled from the spec: libnetconf2's [nc_session_free] ([close(session)]
    of the transport layer) is not part of the source; it hands the session's
    data pointer to the callback and the session is gone afterwards.  It does
    not touch any poll structure. *)
Definition nc_session_free (s : ptr) (data_free : ptr → world → option world)
    (w : world) : option world :=
  match s with
  | None => Some w
  | Some n =>
      sess ← nc_live w !! n;
      w ← data_free (data sess) w;
      Some (emit (E_nc_session_free n) (set_nc_live (delete n (nc_live w)) w))
  end.

(** Modelled from the spec: libnetconf2's [nc_accept] ([accept(timeout) ->
    session | none | error]) is not part of the source; on return value 1 a
    new session exists, running and without data, and its address is stored
    through the second argument. *)
Definition nc_accept (rc : Z) (w : world) : Z * ptr * world :=
  if bool_decide (rc = 1) then
    let n := fresh (dom (nc_live w)) in
    let w := set_nc_live (<[n := NcSession NULL NC_STATUS_RUNNING]> (nc_live w)) w in
    (rc, Some n, emit (E_nc_accept rc (Some n)) w)
  else (rc, NULL, emit (E_nc_accept rc NULL) w).

(** Modelled from the spec: libnetconf2's [nc_ps_add_session]
    ([register(sessionSet, session)]) is not part of the source; it appends
    the session to the poll structure and rejects a null session. *)
Definition nc_ps_add_session (s : ptr) (w : world) : world :=
  let w := emit (E_nc_ps_add_session s) w in
  match s with
  | None => w
  | Some n => set_nc_ps (nc_ps w ++ [n]) w
  end.

Definition nc_ps_session_count (w : world) : nat := length (nc_ps w).

Fixpoint free_sessions (l : list nat) (data_free : ptr → world → option world)
    (w : world) : option world :=
  match l with
  | [] => Some w
  | n :: l =>
      w ← nc_session_free (Some n) data_free w;
      free_sessions l data_free w
  end.

Fixpoint clear_invalid (l : list nat) (data_free : ptr → world → option world)
    (w : world) : option (list nat * world) :=
  match l with
  | [] => Some ([], w)
  | n :: l =>
      sess ← nc_live w !! n;
      if bool_decide (status sess ≠ NC_STATUS_RUNNING) then
        w ← nc_session_free (Some n) data_free w;
        clear_invalid l data_free w
      else
        '(k, w) ← clear_invalid l data_free w;
        Some (n :: k, w)
  end.

(** Modelled from the spec: libnetconf2's [nc_ps_clear] is not part of the
    source; with [all] set it frees every session of the poll structure,
    otherwise those that are no longer running ("run teardown for each and
    remove from SessionSet"); each one goes through [nc_session_free] with the
    given callback. *)
Definition nc_ps_clear (all : Z) (data_free : ptr → world → option world)
    (w : world) : option world :=
  let w := emit (E_nc_ps_clear all) w in
  if bool_decide (all ≠ 0) then
    w ← free_sessions (nc_ps w) data_free w;
    Some (set_nc_ps [] w)
  else
    '(k, w) ← clear_invalid (nc_ps w) data_free w;
    Some (set_nc_ps k w).

Definition mark_invalid (l : list nat) (w : world) : world :=
  set_nc_live
    (foldr (λ n m, alter (λ s, NcSession (data s) NC_STATUS_INVALID) n m) (nc_live w) l) w.

(** What the environment decides in one iteration of [process_loop]: the
    value [nc_ps_poll] returns, the sessions it found dead, and whether
    [nc_ps_accept_ssh_channel] produces a session. *)
Record worker_env := WorkerEnv {
  poll_rc : Z;
  poll_invalid : list nat;
  chan_ok : bool
}.

(** Modelled from the spec: libnetconf2's [nc_ps_poll] ([multiplex_wait]) is
    not part of the source; it returns -1 on error, 3 when a session changed
    its status, 5 when a new SSH channel was created; sessions whose transport
    ended are marked invalid. *)
Definition nc_ps_poll (e : worker_env) (w : world) : Z * world :=
  (poll_rc e, emit (E_nc_ps_poll (poll_rc e)) (mark_invalid (poll_invalid e) w)).

(** Modelled from the spec: libnetconf2's [nc_ps_accept_ssh_channel]
    ([accept_secondary_channel(session) -> subsession]) is not part of the
    source; on success a new session exists and is stored through the second
    argument, otherwise the argument keeps its value. *)
Definition nc_ps_accept_ssh_channel (e : worker_env) (old : ptr) (w : world) : ptr * world :=
  if chan_ok e then
    let n := fresh (dom (nc_live w)) in
    let w := set_nc_live (<[n := NcSession NULL NC_STATUS_RUNNING]> (nc_live w)) w in
    (Some n, emit (E_nc_ps_accept_ssh_channel (Some n)) w)
  else (old, emit (E_nc_ps_accept_ssh_channel old) w).

Definition usleep (us : Z) (w : world) : world := emit (E_usleep us) w.

(** ** Session binding: [connect_ds] *)

(** What the environment decides in one call of [connect_ds]: whether
    [calloc] succeeds, the value [sr_session_start_user] returns and, for a
    call that fails, whether it stored a session handle all the same (a call
    that succeeds always stores one: [open_session -> handle | error]). *)
Record bind_env := BindEnv {
  calloc_ok : bool;
  sr_rc : Z;
  sr_set : bool
}.

Definition connect_ds (e : bind_env) (ncs : ptr) (w : world) : option (Z * world) :=
  match ncs with
  | None => Some (EXIT_FAILURE, w)
  | Some n =>
      if negb (calloc_ok e) then Some (EXIT_FAILURE, emit (E_calloc NULL) w)
      else
        let a := fresh (dom (heap w)) in
        let w := emit (E_calloc (Some a))
                      (set_heap (<[a := Np2Sessions NULL NULL SR_DS_STARTUP 0]> (heap w)) w) in
        let w := set_heap (<[a := Np2Sessions ncs NULL SR_DS_RUNNING SR_SESS_DEFAULT]> (heap w)) w in
        (* nc_session_get_username(ncs) reads the session *)
        _ ← nc_live w !! n;
        let h := if bool_decide (sr_rc e = SR_ERR_OK) || sr_set e
                 then Some (fresh (sr_open w)) else NULL in
        let s := Np2Sessions ncs h SR_DS_RUNNING SR_SESS_DEFAULT in
        let w := set_heap (<[a := s]> (heap w)) w in
        let w := match h with
                 | Some x => set_sr_open ({[x]} ∪ sr_open w) w
                 | None => w
                 end in
        let w := emit (E_sr_session_start_user (sr_rc e) h) w in
        if bool_decide (sr_rc e ≠ SR_ERR_OK) then
          (* error: *)
          let w := match srs s with
                   | Some x => sr_session_stop x w
                   | None => w
                   end in
          Some (EXIT_FAILURE, free a w)
        else
          Some (EXIT_SUCCESS, nc_session_set_data n a w)
  end.

(** ** The processing thread: one iteration of the loop of [process_loop] *)

Definition process_body (e : worker_env) (ncs : ptr) (w : world) : option (ptr * world) :=
  if bool_decide (nc_ps_session_count w ≠ 0%nat) then
    let '(rc, w) := nc_ps_poll e w in
    if bool_decide (rc = -1) || bool_decide (rc = 3) then
      w ← nc_ps_clear 0 free_ds w;
      Some (ncs, usleep 250 w)
    else if bool_decide (rc = 5) then
      let '(ncs, w) := nc_ps_accept_ssh_channel e ncs w in
      Some (ncs, nc_ps_add_session ncs w)
    else Some (ncs, w)
  else
    Some (ncs, usleep 100 w).

(** The code after the loop of [process_loop]. *)
Definition process_cleanup (w : world) : option world :=
  w ← nc_ps_clear 1 free_ds w;
  Some (emit E_nc_thread_destroy w).

(** ** The accept loop: one iteration of the loop of [main] *)

(** What the environment decides in one iteration of the accept loop: the
    value [nc_accept] returns and the outcome of the binding. *)
Record accept_env := AcceptEnv {
  acc_rc : Z;
  acc_bind : bind_env
}.

Definition accept_body (e : accept_env) (w : world) : option world :=
  let '(rc, ncs, w) := nc_accept (acc_rc e) w in
  if bool_decide (rc = 1) then
    '(r, w) ← connect_ds (acc_bind e) ncs w;
    if bool_decide (r ≠ 0) then
      nc_session_free ncs free_ds w
    else
      Some (nc_ps_add_session ncs w)
  else Some w.

(** ** Lifecycle controller: [signal_handler] *)

(** The signal numbers of <signal.h> on Linux. *)
Definition SIGHUP : Z := 1.
Definition SIGINT : Z := 2.
Definition SIGQUIT : Z := 3.
Definition SIGABRT : Z := 6.
Definition SIGUSR1 : Z := 10.
Definition SIGTERM : Z := 15.

(** The handler returns to the interrupted code or calls [exit]. *)
Inductive handler_result :=
| Returns (w : world)
| Exits (status : Z).

Definition is_termination (sig : Z) : bool :=
  bool_decide (sig = SIGINT) || bool_decide (sig = SIGTERM)
  || bool_decide (sig = SIGQUIT) || bool_decide (sig = SIGABRT).

Definition is_restart (sig : Z) : bool :=
  bool_decide (sig = SIGHUP) || bool_decide (sig = SIGUSR1).

Definition signal_handler (sig : Z) (w : world) : handler_result :=
  if is_termination sig then
    if bool_decide (quit w = 0) then
      Returns (set_control LOOP_STOP (set_quit 1 w))
    else
      Exits EXIT_FAILURE
  else if is_restart sig then
    Returns (set_control LOOP_RESTART w)
  else
    Exits EXIT_FAILURE.

(** ** The process: [main] from the label [restart] on, and the thread *)

(** Where the main thread stands: at the label [restart], at the test of the
    accept loop, inside its body, at [pthread_join], at the label [cleanup]. *)
Inductive main_pc := M_restart | M_accept_cond | M_accept_body | M_join | M_cleanup.

(** Where the processing thread stands: not created, at the test of its
    loop, inside the body, returned. *)
Inductive worker_pc := W_none | W_cond | W_body | W_done.

#[global] Instance main_pc_eq_dec : EqDecision main_pc.
Proof. solve_decision. Defined.
#[global] Instance worker_pc_eq_dec : EqDecision worker_pc.
Proof. solve_decision. Defined.

(** The process: the world, where the two threads stand, the local [ret] of
    [main] and the local [ncs] of [process_loop] (indeterminate in C when the
    thread starts, null here). *)
Record sys := Sys {
  wld : world;
  mpc : main_pc;
  ret : Z;
  wpc : worker_pc;
  w_ncs : ptr
}.

(** A run is still going on, or the process has ended with an exit status
    (by [exit] in the handler or by the return of [main]), or a dead pointer
    was dereferenced. *)
Inductive outcome :=
| Running (s : sys)
| Exited (status : Z) (w : world)
| Undefined.

(** What the environment decides for a step of the main thread: whether
    [server_init] succeeds, and the iteration of the accept loop. *)
Record main_env := MainEnv {
  init_ok : bool;
  m_accept : accept_env
}.

(** One step of a run: a signal is delivered, or one of the two threads
    runs up to its next test, with what the environment decides for it. *)
Inductive tick :=
| T_signal (sig : Z)
| T_main (e : main_env)
| T_worker (e : worker_env).

(** [server_init], reduced to its result and to the poll structure it
    creates with [nc_ps_new]. *)
Definition server_init (ok : bool) (w : world) : Z * world :=
  if ok then (EXIT_SUCCESS, emit (E_server_init EXIT_SUCCESS) (set_nc_ps [] w))
  else (EXIT_FAILURE, emit (E_server_init EXIT_FAILURE) w).

(** One step of [main] from the label [restart] on: initialisation and
    creation of the thread, the test of the accept loop, its body,
    [pthread_join] (which returns only when the thread has returned), the
    cleanup (it frees the poll structure, not the sessions in it) and the
    test that jumps back to [restart] or returns [ret].  Not modelled: a
    [pthread_create] that fails ([main] does not look at its result), and
    what the cleanup does to the libyang context that the error path of
    [server_init] has destroyed already. *)
Definition main (e : main_env) (s : sys) : outcome :=
  match mpc s with
  | M_restart =>
      let '(rc, w) := server_init (init_ok e) (wld s) in
      if bool_decide (rc ≠ 0) then
        Running (Sys w M_cleanup EXIT_FAILURE (wpc s) (w_ncs s))
      else
        Running (Sys (emit E_pthread_create w) M_accept_cond (ret s) W_cond NULL)
  | M_accept_cond =>
      if bool_decide (control (wld s) = LOOP_CONTINUE)
      then Running (Sys (wld s) M_accept_body (ret s) (wpc s) (w_ncs s))
      else Running (Sys (wld s) M_join (ret s) (wpc s) (w_ncs s))
  | M_accept_body =>
      match accept_body (m_accept e) (wld s) with
      | Some w => Running (Sys w M_accept_cond (ret s) (wpc s) (w_ncs s))
      | None => Undefined
      end
  | M_join =>
      if bool_decide (wpc s = W_done)
      then Running (Sys (emit E_pthread_join (wld s)) M_cleanup (ret s) (wpc s) (w_ncs s))
      else Running s
  | M_cleanup =>
      let w := emit E_cleanup (wld s) in
      if bool_decide (control w = LOOP_RESTART)
      then Running (Sys w M_restart (ret s) (wpc s) (w_ncs s))
      else Exited (ret s) w
  end.

(** One step of [process_loop]: the test of the loop with the code after
    the loop, or the body of the loop. *)
Definition process_loop (e : worker_env) (s : sys) : outcome :=
  match wpc s with
  | W_none | W_done => Running s
  | W_cond =>
      if bool_decide (control (wld s) = LOOP_CONTINUE)
      then Running (Sys (wld s) (mpc s) (ret s) W_body (w_ncs s))
      else
        match process_cleanup (wld s) with
        | Some w => Running (Sys w (mpc s) (ret s) W_done (w_ncs s))
        | None => Undefined
        end
  | W_body =>
      match process_body e (w_ncs s) (wld s) with
      | Some (p, w) => Running (Sys w (mpc s) (ret s) W_cond p)
      | None => Undefined
      end
  end.

Definition step (t : tick) (s : sys) : outcome :=
  match t with
  | T_signal sig =>
      match signal_handler sig (wld s) with
      | Returns w => Running (Sys w (mpc s) (ret s) (wpc s) (w_ncs s))
      | Exits st => Exited st (wld s)
      end
  | T_main e => main e s
  | T_worker e => process_loop e s
  end.

Fixpoint run (ts : list tick) (s : sys) : outcome :=
  match ts with
  | [] => Running s
  | t :: ts =>
      match step t s with
      | Running s => run ts s
      | o => o
      end
  end.

Definition no_lock : np2srv_dslock := Dslock NULL NULL NULL.

(** The state in which [main] reaches the label [restart] for the first
    time. *)
Definition boot : sys :=
  Sys (World LOOP_CONTINUE 0 no_lock [] ∅ ∅ ∅ []) M_restart EXIT_SUCCESS W_none NULL.

(** ** Auxiliary definitions for the statements *)

(** The slot left by the cleanup, from the slot found. *)
Definition cleaned (s slot : ptr) : ptr := if ptr_eqb slot s then NULL else slot.

(** A registry in which session 7 holds running and candidate and session 9
    holds startup. *)
Definition w_locked : world :=
  World LOOP_CONTINUE 0 (Dslock (Some 7%nat) (Some 9%nat) (Some 7%nat)) [] ∅ ∅ ∅ [].

(** A world with one bound session: NETCONF session 7, its binding at
    address 3 with the sysrepo session 5 open; session 7 holds the running
    lock. *)
Definition w_bound : world :=
  World LOOP_CONTINUE 0 (Dslock (Some 7%nat) NULL NULL) [7%nat]
        {[3%nat := Np2Sessions (Some 7%nat) (Some 5%nat) SR_DS_RUNNING SR_SESS_DEFAULT]}
        {[5%nat]}
        {[7%nat := NcSession (Some 3%nat) NC_STATUS_RUNNING]} [].

(** The same with a binding whose sysrepo session is absent. *)
Definition w_bound_closed : world :=
  World LOOP_CONTINUE 0 (Dslock (Some 7%nat) NULL NULL) [7%nat]
        {[3%nat := Np2Sessions (Some 7%nat) NULL SR_DS_RUNNING SR_SESS_DEFAULT]}
        ∅
        {[7%nat := NcSession (Some 3%nat) NC_STATUS_RUNNING]} [].

(** The signal classes of the [switch] in [signal_handler]. *)
Definition termination_class : list Z := [SIGINT; SIGTERM; SIGQUIT; SIGABRT].
Definition restart_class : list Z := [SIGHUP; SIGUSR1].

(** The events of closing the sysrepo session of a binding. *)
Definition close_events (b : np2_sessions) : list event :=
  match srs b with
  | Some h => [E_sr_session_stop h]
  | None => []
  end.

(** The calls [connect_ds] makes apart from attaching the binding. *)
Definition bind_local (ev : event) : Prop :=
  match ev with
  | E_calloc _ | E_sr_session_start_user _ _ | E_sr_session_stop _ | E_free _ => True
  | _ => False
  end.

(** Session [n] has a live binding attached: its data pointer designates a
    live [np2_sessions] that refers back to [n] and whose sysrepo session is
    open. *)
Definition bound (n : nat) (w : world) : Prop :=
  ∃ (sess : nc_session) (a : nat) (b : np2_sessions) (h : nat),
    nc_live w !! n = Some sess ∧ data sess = Some a ∧
    heap w !! a = Some b ∧ ncs b = Some n ∧
    srs b = Some h ∧ h ∈ sr_open w.

(** Session [n] can be freed: it is alive, and its data pointer is null or
    designates a live [np2_sessions] that refers back to [n]. *)
Definition session_ok (n : nat) (w : world) : Prop :=
  ∃ sess : nc_session, nc_live w !! n = Some sess ∧
    match data sess with
    | None => True
    | Some a => ∃ b : np2_sessions, heap w !! a = Some b ∧ ncs b = Some n
    end.

(** The binding attached to session [n], if any. *)
Definition binding_of (n : nat) (w : world) : option (nat * np2_sessions) :=
  sess ← nc_live w !! n;
  a ← data sess;
  b ← heap w !! a;
  Some (a, b).

(** The calls of the teardown of session [n]: those of [free_ds] on its
    binding, if it has one, then the end of [nc_session_free]. *)
Definition teardown_events (w : world) (n : nat) : list event :=
  match binding_of n w with
  | Some (a, b) => close_events b ++ [E_clean_dslock (ncs b); E_free a]
  | None => []
  end ++ [E_nc_session_free n].

(** The sessions freed and the bindings freed in a trace, in order. *)
Definition freed_sessions (tr : list event) : list nat :=
  omap (λ ev, match ev with E_nc_session_free n => Some n | _ => None end) tr.

Definition freed_bindings (tr : list event) : list nat :=
  omap (λ ev, match ev with E_free a => Some a | _ => None end) tr.

(** Whether session [n] is still running. *)
Definition is_running (w : world) (n : nat) : bool :=
  match nc_live w !! n with
  | Some sess => bool_decide (status sess = NC_STATUS_RUNNING)
  | None => false
  end.

(** The calls made inside the bodies of the two loops. *)
Definition loop_call (ev : event) : bool :=
  match ev with
  | E_nc_accept _ _ | E_nc_ps_poll _ | E_usleep _
  | E_nc_ps_accept_ssh_channel _ | E_nc_ps_add_session _ => true
  | _ => false
  end.

Definition loop_calls (tr : list event) : list event := List.filter loop_call tr.
Arguments loop_calls : simpl never.

(** A process with the bound session of [w_bound], the processing thread
    inside its loop body, the main thread at the test of the accept loop. *)
Definition s_polling : sys := Sys w_bound M_accept_cond EXIT_SUCCESS W_body NULL.

(** The same with the flag at LOOP_STOP and the thread at the test of its
    loop. *)
Definition s_stopping : sys :=
  Sys (set_control LOOP_STOP w_bound) M_join EXIT_SUCCESS W_cond NULL.

(** The process after a first termination signal. *)
Definition s_stop_pending : sys :=
  Sys (set_control LOOP_STOP (set_quit 1 (wld boot))) M_accept_cond EXIT_SUCCESS W_cond NULL.

(** While the main thread is at the label [restart] or at [cleanup], no
    processing thread is inside its loop. *)
Definition joined (s : sys) : Prop :=
  mpc s = M_restart ∨ mpc s = M_cleanup → wpc s = W_none ∨ wpc s = W_done.

(** The flag has left LOOP_CONTINUE, neither thread is inside the body of
    its loop, and a processing thread at the test of its loop has an empty
    poll structure. *)
Definition idle (s : sys) : Prop :=
  control (wld s) ≠ LOOP_CONTINUE ∧ mpc s ≠ M_accept_body ∧ wpc s ≠ W_body ∧
  (wpc s = W_cond → nc_ps (wld s) = []).

(** The outcome of a run in which no loop body was executed: the calls made
    inside the loops are those already in [tr], and the process, if it still
    runs, is idle. *)
Definition no_iteration (tr : list event) (o : outcome) : Prop :=
  match o with
  | Running s => idle s ∧ loop_calls (trace (wld s)) = loop_calls tr
  | Exited _ w => loop_calls (trace w) = loop_calls tr
  | Undefined => False
  end.

(** Environments used in the examples: a binding that succeeds, one whose
    [sr_session_start_user] fails after storing a handle, an accept that
    returns a session, a poll that fails, a poll that times out. *)
Definition bind_ok : bind_env := BindEnv true SR_ERR_OK true.
Definition bind_fails : bind_env := BindEnv true 5 true.
Definition accept_ok : accept_env := AcceptEnv 1 bind_ok.
Definition accept_bind_fails : accept_env := AcceptEnv 1 bind_fails.
Definition main_ok : main_env := MainEnv true accept_ok.
Definition poll_fails : worker_env := WorkerEnv (-1) [] false.
Definition poll_timeout : worker_env := WorkerEnv 0 [] false.

(** A run from the start of the process: initialisation, one session
    accepted and bound, one poll, then SIGHUP; both loops end, the session is
    torn down, the main thread joins, cleans up and is back at [restart]. *)
Definition first_cycle : list tick :=
  [T_main main_ok; T_main main_ok; T_main main_ok;
   T_worker poll_timeout; T_worker poll_timeout;
   T_signal SIGHUP;
   T_main main_ok; T_worker poll_timeout; T_main main_ok; T_main main_ok].

(** What follows, with one more restart signal on the way. *)
Definition second_cycle : list tick :=
  [T_main main_ok; T_signal SIGUSR1; T_main main_ok;
   T_worker poll_timeout; T_worker poll_timeout;
   T_main main_ok; T_main main_ok; T_main main_ok; T_main main_ok;
   T_worker poll_timeout; T_main main_ok].

Definition from_running (o : outcome) : sys :=
  match o with
  | Running s => s
  | _ => boot
  end.

Definition s_restarted : sys := from_running (run first_cycle boot).

(** A run in which SIGTERM arrives while the main thread is inside the body
    of the accept loop: the processing thread leaves its loop and cleans up,
    then [nc_accept] returns a session, which is bound and registered. *)
Definition late_accept : list tick :=
  [T_main main_ok; T_main main_ok; T_signal SIGTERM; T_worker poll_timeout;
   T_main main_ok; T_main main_ok; T_main main_ok; T_main main_ok].

(** A poll that reports a new SSH channel, which is then accepted. *)
Definition poll_channel : worker_env := WorkerEnv 5 [] true.

(** The poll structure is well formed: no session twice, and every session
    can be freed. *)
Definition ps_ok (w : world) : Prop :=
  NoDup (nc_ps w) ∧ ∀ n : nat, n ∈ nc_ps w → session_ok n w.

(** A tick whose poll reports a new SSH channel has that channel accepted. *)
Definition channel_accepted (t : tick) : bool :=
  match t with
  | T_worker e => implb (bool_decide (poll_rc e = 5)) (chan_ok e)
  | _ => true
  end.

(** ** The start of [main]: command line and PID file *)

(** libnetconf2's verbosity levels; the usage text of [print_usage] lists
    them as 0 (errors) to 3 (all messages including debug notes). *)
Definition NC_VERB_ERROR : Z := 0.
Definition NC_VERB_DEBUG : Z := 3.

(** The level [main] stores for the argument [c] of the option [-v]. *)
Definition normalize_verbose (c : Z) : Z :=
  if c >? NC_VERB_ERROR
  then (if c >? NC_VERB_DEBUG then NC_VERB_DEBUG else c)
  else NC_VERB_ERROR.

(** What [getopt] returns for the option string "dhv:V": one of the four
    options ([-v] with [atoi] of its argument) or its error character. *)
Inductive getopt_result := Opt_d | Opt_h | Opt_v (arg : Z) | Opt_V | Opt_error.

#[global] Instance getopt_result_eq_dec : EqDecision getopt_result.
Proof. solve_decision. Defined.

Inductive printed := Usage | Version.

(** The local [daemonize] of [main] and the global [np2_verbose_level]. *)
Record cmdline := Cmdline {
  daemonize : Z;
  np2_verbose_level : Z
}.

(** The option loop ends with the settings, or the process ends: [print_usage]
    calls [exit(0)], and [main] returns EXIT_SUCCESS after [print_version]. *)
Inductive options_outcome :=
| Settings (c : cmdline)
| Ends (status : Z) (out : printed).

(** The loop [while ((c = getopt(...)) != -1)] of [main], on the values
    [getopt] returns in turn. *)
Fixpoint process_options (opts : list getopt_result) (c : cmdline) : options_outcome :=
  match opts with
  | [] => Settings c
  | o :: opts =>
      match o with
      | Opt_d => process_options opts (Cmdline 0 (np2_verbose_level c))
      | Opt_h => Ends 0 Usage
      | Opt_v arg => process_options opts (Cmdline (daemonize c) (normalize_verbose arg))
      | Opt_V => Ends EXIT_SUCCESS Version
      | Opt_error => Ends 0 Usage
      end
  end.

(** An option that only changes a setting. *)
Definition is_setting (o : getopt_result) : bool :=
  match o with
  | Opt_d | Opt_v _ => true
  | _ => false
  end.

(** The levels given with [-v], normalised, in order. *)
Definition levels (opts : list getopt_result) : list Z :=
  omap (λ o, match o with Opt_v arg => Some (normalize_verbose arg) | _ => None end) opts.

(** The characters of a number printed with "%d", most significant first,
    as character codes; [fuel] bounds the number of digits. *)
Fixpoint digits_aux (fuel : nat) (n : Z) (acc : list Z) : list Z :=
  match fuel with
  | O => acc
  | S fuel =>
      let acc := (48 + n mod 10) :: acc in
      if n / 10 =? 0 then acc else digits_aux fuel (n / 10) acc
  end.

(** An [int] has at most ten digits. *)
Definition digits (n : Z) : list Z := digits_aux 10 n [].

(** The text "%d\n" gives for a number that is not negative. *)
Definition format_pid (pid : Z) : list Z := digits pid ++ [10].

(** libc's [snprintf] into a buffer of [size] characters: the characters
    stored (at most [size - 1] of the text, then a null character) and the
    value returned, the length of the whole text. *)
Definition snprintf (size : nat) (text : list Z) : list Z * Z :=
  (take (size - 1) text ++ [0], Z.of_nat (length text)).

(** libc's [write] of the first [c] characters of an array of [size]
    characters of which [buf] are set: undefined when it reads a character
    that is outside the array or was never stored. *)
Definition write_from (size : nat) (buf : list Z) (c : Z) : option (list Z) :=
  if bool_decide (0 ≤ c ∧ c ≤ Z.of_nat size ∧ c ≤ Z.of_nat (length buf))
  then Some (take (Z.to_nat c) buf)
  else None.

(** What [main] writes to the truncated PID file: [char pid[8]],
    [c = snprintf(pid, sizeof(pid), "%d\n", getpid())],
    [write(pidfd, pid, c)]. *)
Definition pid_file_content (pid : Z) : option (list Z) :=
  let '(buf, c) := snprintf 8 (format_pid pid) in
  write_from 8 buf c.

(** ** Further definitions for the statements *)

(** Signals handled one after the other, until the handler exits. *)
Fixpoint handle_signals (sigs : list Z) (w : world) : handler_result :=
  match sigs with
  | [] => Returns w
  | sig :: sigs =>
      match signal_handler sig w with
      | Returns w => handle_signals sigs w
      | Exits st => Exits st
      end
  end.

(** The slot of the lock registry for a datastore. *)
Definition lock_of (k : sr_datastore_t) (d : np2srv_dslock) : ptr :=
  match k with
  | SR_DS_RUNNING => running d
  | SR_DS_STARTUP => startup d
  | SR_DS_CANDIDATE => candidate d
  end.

(** What an execution keeps true as far as the exit status goes: [ret] is
    one of the two statuses, and EXIT_FAILURE once [server_init] has failed;
    a flag at LOOP_STOP comes with [quit] set; the main thread is past the
    accept loop only with the flag changed; it is at [cleanup] with [ret]
    still EXIT_SUCCESS only right after [pthread_join]; and then no thread is
    inside its loop. *)
Definition exit_inv (s : sys) : Prop :=
  (ret s = EXIT_SUCCESS ∨ ret s = EXIT_FAILURE) ∧
  (E_server_init EXIT_FAILURE ∈ trace (wld s) → ret s = EXIT_FAILURE) ∧
  (control (wld s) = LOOP_STOP → quit (wld s) = 1) ∧
  (mpc s = M_join → control (wld s) ≠ LOOP_CONTINUE) ∧
  (mpc s = M_cleanup → ret s = EXIT_SUCCESS →
     control (wld s) ≠ LOOP_CONTINUE ∧ last (trace (wld s)) = Some E_pthread_join) ∧
  joined s.

(** What an exit status tells: it is one of the two statuses, and
    EXIT_SUCCESS comes only from the return of [main] after a stop was
    requested, the thread was joined and no [server_init] ever failed. *)
Definition exit_ok (st : Z) (w : world) : Prop :=
  (st = EXIT_SUCCESS ∨ st = EXIT_FAILURE) ∧
  (st = EXIT_SUCCESS →
     control w = LOOP_STOP ∧ quit w = 1 ∧
     (∃ tr, trace w = tr ++ [E_pthread_join; E_cleanup]) ∧
     E_server_init EXIT_FAILURE ∉ trace w).

(** Two worlds that differ in the trace at most. *)
Definition same_but_trace (w w' : world) : Prop :=
  control w' = control w ∧ quit w' = quit w ∧ dslock w' = dslock w ∧
  nc_ps w' = nc_ps w ∧ heap w' = heap w ∧ sr_open w' = sr_open w ∧
  nc_live w' = nc_live w.

(** The process after a successful initialisation, with nothing accepted. *)
Definition s_idle : sys :=
  Sys (emit E_pthread_create (emit (E_server_init EXIT_SUCCESS) (wld boot)))
      M_accept_cond EXIT_SUCCESS W_cond NULL.

(** An accept that fails. *)
Definition accept_error : accept_env := AcceptEnv (-1) bind_ok.

(** A signal that [signal_handler] has no case for (SIGUSR2 on Linux). *)
Definition SIGUSR2 : Z := 12.

(** The calls [main] makes outside its accept loop. *)
Definition main_call (ev : event) : bool :=
  match ev with
  | E_server_init _ | E_pthread_create | E_pthread_join | E_cleanup => true
  | _ => false
  end.

(** What the bodies of the two loops leave alone: the flag and [quit] are
    the same in [w'] as in [w], and the trace has grown by calls that are not
    among those of [main_call]. *)
Definition in_loop (w w' : world) : Prop :=
  control w' = control w ∧ quit w' = quit w ∧
  ∃ evs, trace w' = trace w ++ evs ∧ Forall (λ ev, main_call ev = false) evs.

(** [w_bound] with a second session, 8, that is registered without binding,
    is no longer running and holds the startup lock. *)
Definition w_two : world :=
  World LOOP_CONTINUE 0 (Dslock (Some 7%nat) (Some 8%nat) NULL) [7%nat; 8%nat]
        {[3%nat := Np2Sessions (Some 7%nat) (Some 5%nat) SR_DS_RUNNING SR_SESS_DEFAULT]}
        {[5%nat]}
        (<[8%nat := NcSession NULL NC_STATUS_INVALID]>
           {[7%nat := NcSession (Some 3%nat) NC_STATUS_RUNNING]}) [].

(** A poll that reports a status change. *)
Definition poll_status : worker_env := WorkerEnv 3 [] false.

(** A run from the label [restart] that ends well: initialisation, one
    session accepted and bound, one poll, then SIGTERM; both loops end, the
    session is torn down, the main thread joins, cleans up and returns. *)
Definition graceful_run : list tick :=
  [T_main main_ok; T_main main_ok; T_main main_ok;
   T_worker poll_timeout; T_worker poll_timeout;
   T_signal SIGTERM;
   T_main main_ok; T_worker poll_timeout; T_main main_ok; T_main main_ok].

Definition w_exited : world :=
  match run graceful_run boot with
  | Exited _ w => w
  | _ => wld boot
  end.

(** The first part of [late_accept]: SIGTERM arrives while the main thread
    is inside the body of the accept loop, and the processing thread leaves
    its loop, cleans up and returns. *)
Definition late_prefix : list tick :=
  [T_main main_ok; T_main main_ok; T_signal SIGTERM; T_worker poll_timeout].

Definition s_drained : sys := from_running (run late_prefix boot).

(** A poll that reports a new SSH channel, which is then not accepted. *)
Definition poll_channel_fails : worker_env := WorkerEnv 5 [] false.

(** A run in which a new SSH channel is accepted and registered, the next
    one is reported but not accepted, and then SIGTERM arrives. *)
Definition dup_run : list tick :=
  [T_main main_ok; T_main main_ok; T_main main_ok;
   T_worker poll_channel; T_worker poll_channel;
   T_worker poll_channel_fails; T_worker poll_channel_fails;
   T_signal SIGTERM].

(** A step of [main] in which [server_init], if called, succeeds. *)
Definition init_succeeds (t : tick) : bool :=
  match t with
  | T_main e => init_ok e
  | _ => true
  end.

End Netopeer.

Import Netopeer.

(** * Properties *)

(** ** Lock registry *)

Section LockRegistry.

Implicit Types (s : ptr) (w : world).

Lemma clean_dslock_slots s w :
  dslock (np2srv_clean_dslock s w) =
  Dslock (cleaned s (running (dslock w))) (cleaned s (startup (dslock w)))
         (cleaned s (candidate (dslock w))).
Proof.
  unfold np2srv_clean_dslock, cleaned, ptr_eqb.
  destruct w as [c q [r st ca] ps hp so nl tr]; cbn.
  destruct (bool_decide (r = s)); cbn;
    destruct (bool_decide (st = s)); cbn;
    destruct (bool_decide (ca = s)); reflexivity.
Qed.

Lemma clean_dslock_rest s w :
  let w' := np2srv_clean_dslock s w in
  control w' = control w ∧ quit w' = quit w ∧ nc_ps w' = nc_ps w ∧
  heap w' = heap w ∧ sr_open w' = sr_open w ∧ nc_live w' = nc_live w ∧
  trace w' = trace w ++ [E_clean_dslock s].
Proof.
  unfold np2srv_clean_dslock, ptr_eqb.
  destruct w as [c q [r st ca] ps hp so nl tr]; cbn.
  destruct (bool_decide (r = s)); cbn;
    destruct (bool_decide (st = s)); cbn;
    destruct (bool_decide (ca = s)); cbn; repeat split; reflexivity.
Qed.

Lemma cleaned_not s slot : s ≠ NULL → cleaned s slot ≠ s.
Proof.
  unfold cleaned, ptr_eqb. intros Hs. case_bool_decide; simpl; congruence.
Qed.

Lemma cleaned_other s slot : slot ≠ s → cleaned s slot = slot.
Proof.
  unfold cleaned, ptr_eqb. intros Hs. case_bool_decide; simpl; congruence.
Qed.

Lemma cleaned_holder s slot (h : nat) : cleaned s slot = Some h → slot = Some h.
Proof.
  unfold cleaned, ptr_eqb. case_bool_decide; simpl; [discriminate | trivial].
Qed.

(** C5: for every session S and every state of the lock registry, after
    [np2srv_clean_dslock] has run for S none of the three slots (running,
    startup, candidate) references S. *)
Theorem clean_dslock_complete (S : nat) (w : world) :
  let d := dslock (np2srv_clean_dslock (Some S) w) in
  running d ≠ Some S ∧ startup d ≠ Some S ∧ candidate d ≠ Some S.
Proof.
  simpl. rewrite clean_dslock_slots. simpl.
  repeat split; apply cleaned_not; discriminate.
Qed.

(** C9: [np2srv_clean_dslock] leaves every slot that is unlocked or held by
    another session exactly as it was, and a slot that has a holder afterwards
    had that same holder before: the operation only clears. *)
Theorem clean_dslock_frame (S : nat) (w : world) :
  let d := dslock w in
  let d' := dslock (np2srv_clean_dslock (Some S) w) in
  (running d ≠ Some S → running d' = running d) ∧
  (startup d ≠ Some S → startup d' = startup d) ∧
  (candidate d ≠ Some S → candidate d' = candidate d) ∧
  (∀ h : nat, running d' = Some h → running d = Some h) ∧
  (∀ h : nat, startup d' = Some h → startup d = Some h) ∧
  (∀ h : nat, candidate d' = Some h → candidate d = Some h).
Proof.
  simpl. rewrite clean_dslock_slots. simpl.
  repeat split; try (apply cleaned_other); try (intros h; apply cleaned_holder).
Qed.

End LockRegistry.

(** Session 7 releases running and candidate; startup stays with 9. *)
Lemma clean_dslock_complete_witness :
  dslock (np2srv_clean_dslock (Some 7%nat) w_locked) = Dslock NULL (Some 9%nat) NULL ∧
  running (dslock (np2srv_clean_dslock (Some 7%nat) w_locked)) ≠ Some 7%nat.
Proof.
  split; [reflexivity | apply (clean_dslock_complete 7 w_locked)].
Defined.

(** The startup slot, held by session 9, survives the cleanup for 7. *)
Lemma clean_dslock_frame_witness :
  startup (dslock w_locked) ≠ Some 7%nat ∧
  startup (dslock (np2srv_clean_dslock (Some 7%nat) w_locked)) = Some 9%nat.
Proof.
  split; [discriminate |].
  apply (proj1 (proj2 (clean_dslock_frame 7 w_locked))). discriminate.
Defined.

(** ** Teardown of a binding *)

Section Teardown.

Implicit Types (w : world) (b : np2_sessions).

Lemma free_ds_spec (a : nat) b w :
  heap w !! a = Some b →
  ∃ w', free_ds (Some a) w = Some w' ∧
    trace w' = trace w ++ close_events b ++ [E_clean_dslock (ncs b); E_free a] ∧
    sr_open w' = match srs b with
                 | Some h => sr_open w ∖ {[h]}
                 | None => sr_open w
                 end ∧
    dslock w' = dslock (np2srv_clean_dslock (ncs b) w) ∧
    heap w' = delete a (heap w) ∧
    nc_live w' = nc_live w ∧ nc_ps w' = nc_ps w ∧
    control w' = control w ∧ quit w' = quit w.
Proof.
  intros Hb. unfold free_ds. rewrite Hb. cbn. eexists. split; [reflexivity |].
  unfold free, close_events.
  destruct (srs b) as [h |]; cbn;
    match goal with
    | |- context [np2srv_clean_dslock ?s ?v] =>
        destruct (clean_dslock_rest s v) as (Hc & Hq & Hps & Hh & Hso & Hnl & Htr);
        rewrite Htr, Hh, Hso, Hnl, Hps, Hc, Hq, !clean_dslock_slots
    end; cbn; rewrite <- ?app_assoc; repeat split; reflexivity.
Qed.

(** C6: [free_ds] on a binding first stops the sysrepo session, then cleans
    the datastore locks for the bound NETCONF session, then frees the
    binding, in this order; when the sysrepo session is absent the first step
    is skipped and the other two still run. *)
Theorem free_ds_order (a : nat) (b : np2_sessions) (w : world) :
  heap w !! a = Some b →
  ∃ w', free_ds (Some a) w = Some w' ∧
    trace w' = trace w ++
      match srs b with
      | Some h => [E_sr_session_stop h; E_clean_dslock (ncs b); E_free a]
      | None => [E_clean_dslock (ncs b); E_free a]
      end ∧
    sr_open w' = match srs b with
                 | Some h => sr_open w ∖ {[h]}
                 | None => sr_open w
                 end ∧
    dslock w' = dslock (np2srv_clean_dslock (ncs b) w) ∧
    heap w' = delete a (heap w).
Proof.
  intros Hb. destruct (free_ds_spec a b w Hb) as (w' & Hf & Htr & Hso & Hd & Hh & _).
  exists w'. repeat split; try assumption.
  rewrite Htr. unfold close_events. destruct (srs b); reflexivity.
Qed.

(** C10: [free_ds] called with a null pointer does nothing, and called with a
    binding whose sysrepo session is null it skips the stop only: the locks
    are cleaned and the binding is freed; in both cases it returns. *)
Theorem free_ds_degenerate (w : world) :
  free_ds NULL w = Some w ∧
  ∀ (a : nat) (b : np2_sessions),
    heap w !! a = Some b → srs b = NULL →
    ∃ w', free_ds (Some a) w = Some w' ∧
      trace w' = trace w ++ [E_clean_dslock (ncs b); E_free a] ∧
      sr_open w' = sr_open w ∧
      dslock w' = dslock (np2srv_clean_dslock (ncs b) w) ∧
      heap w' = delete a (heap w).
Proof.
  split; [reflexivity |].
  intros a b Hb Hs.
  destruct (free_ds_spec a b w Hb) as (w' & Hf & Htr & Hso & Hd & Hh & _).
  exists w'. unfold close_events in Htr. rewrite Hs in Htr, Hso.
  repeat split; assumption.
Qed.

End Teardown.

(** The teardown of the binding of [w_bound]. *)
Lemma free_ds_order_witness :
  ∃ w', free_ds (Some 3%nat) w_bound = Some w' ∧
    trace w' = [E_sr_session_stop 5; E_clean_dslock (Some 7%nat); E_free 3].
Proof.
  destruct (free_ds_order 3 (Np2Sessions (Some 7%nat) (Some 5%nat) SR_DS_RUNNING SR_SESS_DEFAULT)
              w_bound) as (w' & Hf & Htr & _).
  - reflexivity.
  - exists w'. split; [exact Hf | exact Htr].
Defined.

(** The teardown of a binding without sysrepo session. *)
Lemma free_ds_degenerate_witness :
  free_ds NULL w_bound_closed = Some w_bound_closed ∧
  ∃ w', free_ds (Some 3%nat) w_bound_closed = Some w' ∧
    trace w' = [E_clean_dslock (Some 7%nat); E_free 3] ∧ sr_open w' = ∅.
Proof.
  destruct (free_ds_degenerate w_bound_closed) as [H0 H1].
  split; [exact H0 |].
  destruct (H1 3%nat (Np2Sessions (Some 7%nat) NULL SR_DS_RUNNING SR_SESS_DEFAULT))
    as (w' & Hf & Htr & Hso & _).
  - reflexivity.
  - reflexivity.
  - exists w'. repeat split; assumption.
Defined.

(** ** Lifecycle controller: the signal handler *)

Section Signals.

Lemma termination_class_inv (sig : Z) :
  sig ∈ termination_class → is_termination sig = true.
Proof.
  unfold termination_class. rewrite !elem_of_cons, elem_of_nil.
  intros [-> | [-> | [-> | [-> | []]]]]; reflexivity.
Qed.

Lemma restart_class_inv (sig : Z) :
  sig ∈ restart_class → is_termination sig = false ∧ is_restart sig = true.
Proof.
  unfold restart_class. rewrite !elem_of_cons, elem_of_nil.
  intros [-> | [-> | []]]; split; reflexivity.
Qed.

(** C3: the transition made by [signal_handler] is a function of the signal,
    the flag and the static [quit]: a termination signal (SIGINT, SIGTERM,
    SIGQUIT, SIGABRT) with [quit = 0] sets [quit] to 1 and the flag to
    LOOP_STOP; a termination signal with [quit] set exits the process with
    EXIT_FAILURE at once, the rest of the state left as it is (no teardown
    runs, whatever was scheduled next); a restart signal (SIGHUP, SIGUSR1)
    sets the flag to LOOP_RESTART whatever the flag and [quit] were. *)
Theorem signal_handler_transitions (sig : Z) (s : sys) :
  let w := wld s in
  (sig ∈ termination_class → quit w = 0 →
     signal_handler sig w = Returns (set_control LOOP_STOP (set_quit 1 w)) ∧
     ∀ sig2 : Z, sig2 ∈ termination_class →
       signal_handler sig2 (set_control LOOP_STOP (set_quit 1 w)) = Exits EXIT_FAILURE) ∧
  (sig ∈ termination_class → quit w ≠ 0 →
     signal_handler sig w = Exits EXIT_FAILURE ∧
     ∀ ts : list tick, run (T_signal sig :: ts) s = Exited EXIT_FAILURE w) ∧
  (sig ∈ restart_class →
     signal_handler sig w = Returns (set_control LOOP_RESTART w)).
Proof.
  cbn. split; [| split].
  - intros Hs Hq. split.
    + unfold signal_handler. rewrite (termination_class_inv _ Hs).
      rewrite bool_decide_eq_true_2 by exact Hq. reflexivity.
    + intros sig2 Hs2. unfold signal_handler. rewrite (termination_class_inv _ Hs2).
      reflexivity.
  - intros Hs Hq.
    assert (Hh : signal_handler sig (wld s) = Exits EXIT_FAILURE).
    { unfold signal_handler. rewrite (termination_class_inv _ Hs).
      rewrite bool_decide_eq_false_2 by exact Hq. reflexivity. }
    split; [exact Hh |]. intros ts. cbn. rewrite Hh. reflexivity.
  - intros Hs. destruct (restart_class_inv _ Hs) as [Ht Hr].
    unfold signal_handler. rewrite Ht, Hr. reflexivity.
Qed.

End Signals.

(** SIGTERM once, a termination signal while the stop is pending, SIGHUP. *)
Lemma signal_handler_transitions_witness :
  signal_handler SIGTERM (wld boot) = Returns (set_control LOOP_STOP (set_quit 1 (wld boot))) ∧
  signal_handler SIGINT (set_control LOOP_STOP (set_quit 1 (wld boot))) = Exits EXIT_FAILURE ∧
  run [T_signal SIGTERM; T_worker poll_timeout] s_stop_pending
    = Exited EXIT_FAILURE (wld s_stop_pending) ∧
  signal_handler SIGHUP (wld boot) = Returns (set_control LOOP_RESTART (wld boot)).
Proof.
  destruct (signal_handler_transitions SIGTERM boot) as (H1 & _ & _).
  destruct (signal_handler_transitions SIGTERM s_stop_pending) as (_ & H2 & _).
  destruct (signal_handler_transitions SIGHUP boot) as (_ & _ & H3).
  assert (Hterm : SIGTERM ∈ termination_class)
    by (unfold termination_class; rewrite !elem_of_cons; right; left; reflexivity).
  destruct (H1 Hterm eq_refl) as [Ha Hb].
  destruct H2 as [_ Hc]; [exact Hterm | discriminate |].
  split; [exact Ha |]. split; [| split].
  - apply Hb. unfold termination_class. rewrite !elem_of_cons. left. reflexivity.
  - apply Hc.
  - apply H3. unfold restart_class. rewrite !elem_of_cons. left. reflexivity.
Defined.

(** ** Binding an accepted session *)

Section Binding.

Implicit Types (w : world) (e : bind_env).

Lemma fresh_heap_None w : heap w !! fresh (dom (heap w)) = None.
Proof. apply not_elem_of_dom, is_fresh. Qed.

Lemma fresh_live_None w : nc_live w !! fresh (dom (nc_live w)) = None.
Proof. apply not_elem_of_dom, is_fresh. Qed.

Lemma open_fresh_closed (X : gset nat) : ({[fresh X]} ∪ X) ∖ {[fresh X]} = X.
Proof.
  apply set_eq. intros y.
  rewrite elem_of_difference, elem_of_union, elem_of_singleton.
  split.
  - intros [[Hy | Hy] Hn]; [contradiction | exact Hy].
  - intros Hy. split; [right; exact Hy |].
    intros ->. exact (is_fresh X Hy).
Qed.

(** [connect_ds] on a live session: it returns, and either it failed and
    left nothing behind, or it succeeded and attached a new binding. *)
Lemma connect_ds_cases e (n : nat) w (sess : nc_session) :
  nc_live w !! n = Some sess →
  ∃ (r : Z) (w2 : world),
    connect_ds e (Some n) w = Some (r, w2) ∧
    control w2 = control w ∧ quit w2 = quit w ∧
    dslock w2 = dslock w ∧ nc_ps w2 = nc_ps w ∧
    ((r = EXIT_FAILURE ∧ (calloc_ok e = false ∨ sr_rc e ≠ SR_ERR_OK) ∧
      heap w2 = heap w ∧ sr_open w2 = sr_open w ∧ nc_live w2 = nc_live w ∧
      ∃ evs, trace w2 = trace w ++ evs ∧ Forall bind_local evs)
     ∨
     (r = EXIT_SUCCESS ∧ calloc_ok e = true ∧ sr_rc e = SR_ERR_OK ∧
      heap w2 = <[fresh (dom (heap w)) :=
                    Np2Sessions (Some n) (Some (fresh (sr_open w))) SR_DS_RUNNING
                                SR_SESS_DEFAULT]> (heap w) ∧
      sr_open w2 = {[fresh (sr_open w)]} ∪ sr_open w ∧
      nc_live w2 = <[n := NcSession (Some (fresh (dom (heap w)))) (status sess)]> (nc_live w) ∧
      trace w2 = trace w ++ [E_calloc (Some (fresh (dom (heap w))));
                             E_sr_session_start_user (sr_rc e) (Some (fresh (sr_open w)));
                             E_nc_session_set_data n (fresh (dom (heap w)))])).
Proof.
  intros Hn. unfold connect_ds.
  destruct (calloc_ok e) eqn:Hc; cbn.
  2:{ do 2 eexists. split; [reflexivity |]. repeat split.
      left. repeat split; auto.
      eexists. split; [reflexivity |]. repeat constructor. }
  rewrite Hn. cbn.
  destruct (bool_decide (sr_rc e = SR_ERR_OK)) eqn:Hrc; cbn.
  - apply bool_decide_eq_true_1 in Hrc.
    rewrite (bool_decide_eq_false_2 (sr_rc e ≠ SR_ERR_OK)) by (intros H; apply H, Hrc).
    do 2 eexists. split; [reflexivity |]. cbn. repeat split.
    right. repeat split; try assumption.
    + rewrite !insert_insert_eq. reflexivity.
    + apply map_eq. intros i. destruct (decide (i = n)) as [-> |].
      * rewrite lookup_alter_eq, Hn, lookup_insert_eq. reflexivity.
      * rewrite lookup_alter_ne, lookup_insert_ne by congruence. reflexivity.
    + rewrite <- !app_assoc. reflexivity.
  - apply bool_decide_eq_false_1 in Hrc.
    rewrite (bool_decide_eq_true_2 (sr_rc e ≠ SR_ERR_OK)) by exact Hrc.
    destruct (sr_set e); cbn.
    + do 2 eexists. split; [reflexivity |]. cbn. repeat split.
      left. repeat split; auto.
      * rewrite !insert_insert_eq, delete_insert_eq. apply delete_id, fresh_heap_None.
      * apply open_fresh_closed.
      * eexists. split; [rewrite <- !app_assoc; reflexivity |]. repeat constructor.
    + do 2 eexists. split; [reflexivity |]. cbn. repeat split.
      left. repeat split; auto.
      * rewrite !insert_insert_eq, delete_insert_eq. apply delete_id, fresh_heap_None.
      * eexists. split; [rewrite <- !app_assoc; reflexivity |]. repeat constructor.
Qed.

Lemma nc_accept_one w :
  nc_accept 1 w =
  (1, Some (fresh (dom (nc_live w))),
   emit (E_nc_accept 1 (Some (fresh (dom (nc_live w)))))
        (set_nc_live (<[fresh (dom (nc_live w)) := NcSession NULL NC_STATUS_RUNNING]>
                        (nc_live w)) w)).
Proof. reflexivity. Qed.

Lemma accept_body_one (e : accept_env) w :
  acc_rc e = 1 →
  accept_body e w =
  connect_ds (acc_bind e) (Some (fresh (dom (nc_live w)))) (nc_accept 1 w).2
  ≫= λ '(r, w2),
       if bool_decide (r ≠ 0)
       then nc_session_free (Some (fresh (dom (nc_live w)))) free_ds w2
       else Some (nc_ps_add_session (Some (fresh (dom (nc_live w)))) w2).
Proof. unfold accept_body. intros ->. reflexivity. Qed.

Lemma nc_accept_inv (rc : Z) w (s : ptr) (w1 : world) :
  nc_accept rc w = (1, s, w1) → rc = 1.
Proof.
  unfold nc_accept. case_bool_decide; [auto |]. intros Heq. congruence.
Qed.

Lemma bind_local_not_add (evs : list event) (p : ptr) :
  Forall bind_local evs → E_nc_ps_add_session p ∉ evs.
Proof.
  intros Hall Hin. rewrite Forall_forall in Hall. exact (Hall _ Hin).
Qed.

Lemma bind_local_not_set_data (evs : list event) (m a : nat) :
  Forall bind_local evs → E_nc_session_set_data m a ∉ evs.
Proof.
  intros Hall Hin. rewrite Forall_forall in Hall. exact (Hall _ Hin).
Qed.

(** C4: when [connect_ds] fails for a session that [nc_accept] has just
    returned, the iteration of the accept loop closes the session with
    [nc_session_free] and does not register it: the poll structure, the set of
    bindings, the open sysrepo sessions and the datastore locks are what they
    were before the iteration, the session is gone, and the calls made contain
    neither [nc_ps_add_session] nor [nc_session_set_data]. *)
Theorem bind_failure_atomic (e : accept_env) (w w1 w2 : world) (s : ptr) (r : Z) :
  nc_accept (acc_rc e) w = (1, s, w1) →
  connect_ds (acc_bind e) s w1 = Some (r, w2) →
  r ≠ EXIT_SUCCESS →
  ∃ (n : nat) (w' : world) (evs : list event),
    s = Some n ∧ accept_body e w = Some w' ∧
    nc_ps w' = nc_ps w ∧ heap w' = heap w ∧ sr_open w' = sr_open w ∧
    dslock w' = dslock w ∧
    nc_live w' = nc_live w ∧ nc_live w' !! n = None ∧
    trace w' = trace w ++ evs ∧ last evs = Some (E_nc_session_free n) ∧
    (∀ p : ptr, E_nc_ps_add_session p ∉ evs) ∧
    (∀ m a : nat, E_nc_session_set_data m a ∉ evs).
Proof.
  intros Hacc Hcon Hr.
  pose proof (nc_accept_inv _ _ _ _ Hacc) as Hrc.
  rewrite (accept_body_one _ _ Hrc). rewrite Hrc in Hacc.
  rewrite nc_accept_one in Hacc |- *. injection Hacc as <- <-.
  set (n := fresh (dom (nc_live w))) in *.
  set (w1 := emit _ _) in *.
  change ((1, Some n, w1).2) with w1.
  assert (Hn : nc_live w1 !! n = Some (NcSession NULL NC_STATUS_RUNNING))
    by (subst w1; cbn; apply lookup_insert_eq).
  destruct (connect_ds_cases (acc_bind e) n w1 _ Hn)
    as (r' & w2' & Hcon' & _ & _ & Hd & Hps & Hcase).
  rewrite Hcon in Hcon'. injection Hcon' as <- <-.
  destruct Hcase as [(_ & _ & Hh & Hso & Hnl & bevs & Htr & Hall) | (Hok & _)];
    [| congruence].
  exists n. rewrite Hcon. cbn.
  rewrite (bool_decide_eq_true_2 (r ≠ 0)) by exact Hr.
  rewrite Hnl, Hn. cbn.
  assert (Hdel : delete n (nc_live w2) = nc_live w).
  { rewrite Hnl. subst w1. cbn. rewrite delete_insert_eq.
    apply delete_id, fresh_live_None. }
  eexists. exists (E_nc_accept 1 (Some n) :: bevs ++ [E_nc_session_free n]).
  split; [reflexivity |]. split; [reflexivity |]. cbn.
  rewrite Hps, Hh, Hso, Hd, Hdel, Htr. subst w1. cbn.
  repeat split.
  - apply fresh_live_None.
  - rewrite <- !app_assoc. reflexivity.
  - change (E_nc_accept 1 (Some n) :: bevs ++ [E_nc_session_free n])
      with ([E_nc_accept 1 (Some n)] ++ bevs ++ [E_nc_session_free n]).
    rewrite !app_assoc. apply last_snoc.
  - intros p. rewrite elem_of_cons, elem_of_app, list_elem_of_singleton.
    intros [Hp | [Hp | Hp]]; try discriminate.
    exact (bind_local_not_add _ _ Hall Hp).
  - intros m a. rewrite elem_of_cons, elem_of_app, list_elem_of_singleton.
    intros [Hp | [Hp | Hp]]; try discriminate.
    exact (bind_local_not_set_data _ _ _ Hall Hp).
Qed.

Lemma bound_ext (m : nat) w w' :
  nc_live w' = nc_live w → heap w' = heap w → sr_open w' = sr_open w →
  bound m w → bound m w'.
Proof.
  intros Hnl Hh Hso (sess & a & b & h & H1 & H2 & H3 & H4 & H5 & H6).
  exists sess, a, b, h. rewrite Hnl, Hh, Hso. auto 10.
Qed.

(** One iteration of the accept loop returns, in one of three ways: nothing
    was accepted; a session was accepted, its binding failed and it was
    closed; a session was accepted, bound and then registered. *)
Lemma accept_body_cases (e : accept_env) w :
  let n := fresh (dom (nc_live w)) in
  let a := fresh (dom (heap w)) in
  let h := fresh (sr_open w) in
  ∃ w', accept_body e w = Some w' ∧
    ((acc_rc e ≠ 1 ∧ w' = emit (E_nc_accept (acc_rc e) NULL) w)
     ∨
     (acc_rc e = 1 ∧
      nc_ps w' = nc_ps w ∧ heap w' = heap w ∧ sr_open w' = sr_open w ∧
      nc_live w' = nc_live w ∧
      ∃ bevs, trace w' = trace w ++ E_nc_accept 1 (Some n) :: bevs ++ [E_nc_session_free n] ∧
              Forall bind_local bevs)
     ∨
     (acc_rc e = 1 ∧
      ∃ w2, connect_ds (acc_bind e) (Some n) (nc_accept (acc_rc e) w).2
              = Some (EXIT_SUCCESS, w2) ∧
        w' = nc_ps_add_session (Some n) w2 ∧
        nc_ps w2 = nc_ps w ∧
        heap w2 = <[a := Np2Sessions (Some n) (Some h) SR_DS_RUNNING SR_SESS_DEFAULT]> (heap w) ∧
        sr_open w2 = {[h]} ∪ sr_open w ∧
        nc_live w2 = <[n := NcSession (Some a) NC_STATUS_RUNNING]> (nc_live w) ∧
        trace w2 = trace w ++ [E_nc_accept 1 (Some n); E_calloc (Some a);
                               E_sr_session_start_user (sr_rc (acc_bind e)) (Some h);
                               E_nc_session_set_data n a])).
Proof.
  intros n a h.
  destruct (decide (acc_rc e = 1)) as [Hrc | Hrc].
  2:{ eexists. split; [| left; split; [exact Hrc | reflexivity]].
      unfold accept_body, nc_accept.
      rewrite (bool_decide_eq_false_2 _ Hrc). cbn.
      rewrite (bool_decide_eq_false_2 _ Hrc). reflexivity. }
  rewrite (accept_body_one _ _ Hrc). rewrite Hrc, nc_accept_one. fold n.
  set (w1 := emit _ _).
  change ((1, Some n, w1).2) with w1.
  assert (Hn : nc_live w1 !! n = Some (NcSession NULL NC_STATUS_RUNNING))
    by (subst w1; cbn; apply lookup_insert_eq).
  destruct (connect_ds_cases (acc_bind e) n w1 _ Hn)
    as (r & w2 & Hcon & _ & _ & Hd & Hps & Hcase).
  rewrite Hcon.
  destruct Hcase as [(Hr & _ & Hh & Hso & Hnl & bevs & Htr & Hall)
                    | (Hr & _ & _ & Hh & Hso & Hnl & Htr)]; subst r; cbn.
  - rewrite Hnl, Hn. cbn.
    assert (Hdel : delete n (nc_live w2) = nc_live w).
    { rewrite Hnl. subst w1. cbn. rewrite delete_insert_eq.
      apply delete_id, fresh_live_None. }
    eexists. split; [reflexivity |]. right. left. cbn.
    rewrite Hps, Hh, Hso, Hdel, Htr. subst w1. cbn.
    repeat split; try reflexivity.
    exists bevs. split; [| exact Hall]. rewrite <- !app_assoc. reflexivity.
  - eexists. split; [reflexivity |]. right. right.
    split; [reflexivity |]. exists w2. split; [reflexivity |].
    split; [reflexivity |].
    rewrite Hps, Hh, Hso, Hnl, Htr. subst w1. cbn.
    repeat split; try reflexivity.
    + apply insert_insert_eq.
    + rewrite <- !app_assoc. reflexivity.
Qed.

(** C8: in every iteration of the accept loop, a session is added to the
    poll structure only after [connect_ds] has succeeded for it: at the call
    of [nc_ps_add_session] the session has a live binding attached, the call
    of [nc_session_set_data] precedes that of [nc_ps_add_session] in the
    trace, and if every session of the poll structure had a live binding
    before the iteration, every one has after it. *)
Theorem accept_binds_before_registering (e : accept_env) (w : world) :
  ∃ w', accept_body e w = Some w' ∧
    ((nc_ps w' = nc_ps w ∧
      ∃ evs, trace w' = trace w ++ evs ∧ ∀ p : ptr, E_nc_ps_add_session p ∉ evs)
     ∨
     (∃ (n a : nat) (w2 : world) (evs : list event),
        connect_ds (acc_bind e) (Some n) (nc_accept (acc_rc e) w).2
          = Some (EXIT_SUCCESS, w2) ∧
        bound n w2 ∧
        w' = nc_ps_add_session (Some n) w2 ∧
        nc_ps w2 = nc_ps w ∧ nc_ps w' = nc_ps w ++ [n] ∧
        trace w2 = trace w ++ evs ++ [E_nc_session_set_data n a] ∧
        (∀ p : ptr, E_nc_ps_add_session p ∉ evs) ∧
        trace w' = trace w2 ++ [E_nc_ps_add_session (Some n)])) ∧
    ((∀ m : nat, m ∈ nc_ps w → bound m w) → ∀ m : nat, m ∈ nc_ps w' → bound m w').
Proof.
  destruct (accept_body_cases e w) as (w' & Hab & Hcase).
  exists w'. split; [exact Hab |].
  destruct Hcase as [(Hrc & ->) | [(Hrc & Hps & Hh & Hso & Hnl & bevs & Htr & Hall)
                                  | (Hrc & w2 & Hcon & -> & Hps & Hh & Hso & Hnl & Htr)]].
  - split.
    + left. split; [reflexivity |]. eexists. split; [reflexivity |].
      intros p. rewrite list_elem_of_singleton. discriminate.
    + intros Hinv m Hm. apply (bound_ext m w); try reflexivity. apply Hinv, Hm.
  - split.
    + left. split; [exact Hps |]. eexists. split; [exact Htr |].
      intros p. rewrite elem_of_cons, elem_of_app, list_elem_of_singleton.
      intros [Hp | [Hp | Hp]]; try discriminate.
      exact (bind_local_not_add _ _ Hall Hp).
    + intros Hinv m Hm. rewrite Hps in Hm.
      apply (bound_ext m w); try assumption. apply Hinv, Hm.
  - set (n := fresh (dom (nc_live w))) in *.
    set (a := fresh (dom (heap w))) in *.
    set (h := fresh (sr_open w)) in *.
    assert (Hbn : bound n w2).
    { exists (NcSession (Some a) NC_STATUS_RUNNING), a,
        (Np2Sessions (Some n) (Some h) SR_DS_RUNNING SR_SESS_DEFAULT), h.
      rewrite Hnl, Hh, Hso. rewrite !lookup_insert_eq.
      repeat split; try reflexivity.
      apply elem_of_union_l, elem_of_singleton. reflexivity. }
    split.
    + right. exists n, a, w2,
        [E_nc_accept 1 (Some n); E_calloc (Some a);
         E_sr_session_start_user (sr_rc (acc_bind e)) (Some h)].
      split; [exact Hcon |]. split; [exact Hbn |]. split; [reflexivity |].
      split; [exact Hps |]. split; [cbn; rewrite Hps; reflexivity |].
      split; [rewrite Htr; reflexivity |]. split; [| reflexivity].
      intros p. rewrite !elem_of_cons, elem_of_nil.
      intros [Hp | [Hp | [Hp | []]]]; discriminate.
    + intros Hinv m. cbn. rewrite Hps, elem_of_app, list_elem_of_singleton.
      intros [Hm | ->].
      * destruct (Hinv m Hm) as (sess & a' & b & h' & H1 & H2 & H3 & H4 & H5 & H6).
        exists sess, a', b, h'. cbn. rewrite Hnl, Hh, Hso.
        assert (m ≠ n) by (intros ->; subst n; rewrite fresh_live_None in H1; discriminate).
        assert (a' ≠ a) by (intros ->; subst a; rewrite fresh_heap_None in H3; discriminate).
        rewrite !lookup_insert_ne by congruence.
        repeat split; try assumption. apply elem_of_union_r, H6.
      * apply (bound_ext n w2); try reflexivity. exact Hbn.
Qed.

End Binding.

(** ** Freeing the sessions of the poll structure *)

Section Drain.

Implicit Types (w : world) (l : list nat).

Lemma session_ok_binding (n : nat) w (a : nat) (b : np2_sessions) :
  session_ok n w → binding_of n w = Some (a, b) → ncs b = Some n.
Proof.
  intros (sess & Hl & Hd). unfold binding_of. rewrite Hl. cbn.
  destruct (data sess) as [a' |]; cbn; [| discriminate].
  destruct Hd as (b' & Hb & Hn). rewrite Hb. cbn. intros [= <- <-]. exact Hn.
Qed.

(** Freeing one session: the teardown of its binding, then the session is
    gone. *)
Lemma nc_session_free_spec (n : nat) w :
  session_ok n w →
  ∃ w1, nc_session_free (Some n) free_ds w = Some w1 ∧
    trace w1 = trace w ++ teardown_events w n ∧
    nc_live w1 = delete n (nc_live w) ∧
    heap w1 = match binding_of n w with
              | Some (a, _) => delete a (heap w)
              | None => heap w
              end ∧
    nc_ps w1 = nc_ps w ∧ control w1 = control w ∧ quit w1 = quit w.
Proof.
  intros (sess & Hl & Hd). unfold nc_session_free, teardown_events, binding_of.
  rewrite Hl. cbn -[free_ds]. destruct (data sess) as [a |]; cbn -[free_ds].
  - destruct Hd as (b & Hb & Hn).
    destruct (free_ds_spec a b w Hb)
      as (w0 & Hf & Htr & _ & _ & Hh & Hnl & Hps & Hc & Hq).
    rewrite Hf, Hb. cbn. eexists. split; [reflexivity |]. cbn.
    rewrite Htr, Hnl, Hh, Hps, Hc, Hq, <- !app_assoc. repeat split; reflexivity.
  - eexists. split; [reflexivity |]. cbn. repeat split; reflexivity.
Qed.

(** Freeing session [n] leaves every other session as it was. *)
Lemma nc_session_free_other (n m : nat) w w1 :
  session_ok n w → session_ok m w → m ≠ n →
  nc_live w1 = delete n (nc_live w) →
  heap w1 = match binding_of n w with
            | Some (a, _) => delete a (heap w)
            | None => heap w
            end →
  session_ok m w1 ∧ binding_of m w1 = binding_of m w ∧
  nc_live w1 !! m = nc_live w !! m.
Proof.
  intros Hn (sess & Hl & Hd) Hne Hnl Hh.
  assert (Hlm : nc_live w1 !! m = nc_live w !! m)
    by (rewrite Hnl; apply lookup_delete_ne; congruence).
  assert (Hhm : ∀ a b, heap w !! a = Some b → ncs b = Some m → heap w1 !! a = Some b).
  { intros a b Hb Hb'. rewrite Hh.
    destruct (binding_of n w) as [[a' b'] |] eqn:Hbn; [| exact Hb].
    rewrite lookup_delete_ne; [exact Hb |].
    intros ->. pose proof (session_ok_binding n w a b' Hn Hbn) as Hn'.
    unfold binding_of in Hbn. destruct Hn as (sn & Hsn & _). rewrite Hsn in Hbn.
    cbn in Hbn. destruct (data sn); cbn in Hbn; [| discriminate].
    destruct (heap w !! n0) eqn:Hx; cbn in Hbn; [| discriminate].
    injection Hbn as -> ->. rewrite Hb in Hx. injection Hx as ->. congruence. }
  split; [| split; [| exact Hlm]].
  - exists sess. rewrite Hlm. split; [exact Hl |].
    destruct (data sess) as [a |]; [| exact I].
    destruct Hd as (b & Hb & Hb'). exists b. split; [eapply Hhm; eassumption | exact Hb'].
  - unfold binding_of. rewrite Hlm, Hl. cbn.
    destruct (data sess) as [a |]; cbn; [| reflexivity].
    destruct Hd as (b & Hb & Hb'). rewrite (Hhm a b Hb Hb'), Hb. reflexivity.
Qed.

Lemma teardown_events_ext (m : nat) w w1 :
  binding_of m w1 = binding_of m w → teardown_events w1 m = teardown_events w m.
Proof. unfold teardown_events. intros ->. reflexivity. Qed.

(** The loop of [nc_ps_clear] with [all] set: every session is torn down,
    in the order of the list. *)
Lemma free_sessions_spec l :
  ∀ w, NoDup l → (∀ n, n ∈ l → session_ok n w) →
  ∃ w', free_sessions l free_ds w = Some w' ∧
    trace w' = trace w ++ flat_map (teardown_events w) l ∧
    (∀ n, n ∈ l → nc_live w' !! n = None) ∧
    (∀ n a b, n ∈ l → binding_of n w = Some (a, b) → heap w' !! a = None) ∧
    (∀ k, nc_live w !! k = None → nc_live w' !! k = None) ∧
    (∀ a, heap w !! a = None → heap w' !! a = None) ∧
    nc_ps w' = nc_ps w ∧ control w' = control w ∧ quit w' = quit w.
Proof.
  induction l as [| n l IH]; intros w Hnd Hok.
  - exists w. cbn. rewrite app_nil_r.
    repeat split; auto.
    + intros n Hin. inversion Hin.
    + intros n a b Hin. inversion Hin.
  - apply NoDup_cons in Hnd as [Hnl Hnd].
    assert (Hn : session_ok n w) by (apply Hok; left).
    destruct (nc_session_free_spec n w Hn) as (w1 & Hf & Htr & Hlive & Hheap & Hps & Hc & Hq).
    assert (Hrest : ∀ m, m ∈ l →
              session_ok m w1 ∧ binding_of m w1 = binding_of m w ∧
              nc_live w1 !! m = nc_live w !! m).
    { intros m Hm. apply (nc_session_free_other n m w w1); auto.
      - apply Hok. right. exact Hm.
      - intros ->. contradiction. }
    destruct (IH w1 Hnd (λ m Hm, proj1 (Hrest m Hm)))
      as (w' & Hfs & Htr' & Hgone & Hfreed & Hmono & Hmonoh & Hps' & Hc' & Hq').
    exists w'. cbn -[nc_session_free]. rewrite Hf. cbn -[nc_session_free].
    split; [exact Hfs |].
    assert (Hdel1 : ∀ k, nc_live w !! k = None → nc_live w1 !! k = None).
    { intros k Hk. rewrite Hlive. destruct (decide (n = k)) as [-> |].
      - apply lookup_delete_eq.
      - rewrite lookup_delete_ne by assumption. exact Hk. }
    assert (Hdelh : ∀ a, heap w !! a = None → heap w1 !! a = None).
    { intros a Ha. rewrite Hheap. destruct (binding_of n w) as [[a' b'] |]; [| exact Ha].
      destruct (decide (a' = a)) as [-> |].
      - apply lookup_delete_eq.
      - rewrite lookup_delete_ne by assumption. exact Ha. }
    repeat split.
    + rewrite Htr', Htr, <- app_assoc. f_equal. f_equal.
      clear -Hrest. induction l as [| m l IHl]; [reflexivity |]. cbn.
      rewrite (teardown_events_ext m w w1) by (apply Hrest; left).
      f_equal. apply IHl. intros k Hk. apply Hrest. right. exact Hk.
    + intros k. rewrite elem_of_cons. intros [-> | Hk]; [| apply Hgone, Hk].
      apply Hmono. rewrite Hlive. apply lookup_delete_eq.
    + intros k a b. rewrite elem_of_cons. intros [-> | Hk] Hb.
      * apply Hmonoh. rewrite Hheap, Hb. apply lookup_delete_eq.
      * apply (Hfreed k a b Hk). rewrite (proj1 (proj2 (Hrest k Hk))). exact Hb.
    + intros k Hk. apply Hmono, Hdel1, Hk.
    + intros a Ha. apply Hmonoh, Hdelh, Ha.
    + congruence.
    + congruence.
    + congruence.
Qed.

Lemma freed_sessions_teardown w (n : nat) : freed_sessions (teardown_events w n) = [n].
Proof.
  unfold freed_sessions, teardown_events, close_events. rewrite omap_app.
  destruct (binding_of n w) as [[a b] |]; [| reflexivity].
  destruct (srs b); reflexivity.
Qed.

Lemma freed_sessions_flat_map w l :
  freed_sessions (flat_map (teardown_events w) l) = l.
Proof.
  induction l as [| n l IH]; [reflexivity |]. cbn.
  unfold freed_sessions in *. rewrite omap_app.
  change (omap _ (teardown_events w n)) with (freed_sessions (teardown_events w n)).
  rewrite freed_sessions_teardown, IH. reflexivity.
Qed.

Lemma freed_bindings_teardown w (n : nat) :
  freed_bindings (teardown_events w n) =
  match binding_of n w with Some (a, _) => [a] | None => [] end.
Proof.
  unfold freed_bindings, teardown_events, close_events. rewrite omap_app.
  destruct (binding_of n w) as [[a b] |]; [| reflexivity].
  destruct (srs b); reflexivity.
Qed.

Lemma freed_bindings_flat_map w l :
  freed_bindings (flat_map (teardown_events w) l) =
  omap (λ n, fst <$> binding_of n w) l.
Proof.
  induction l as [| n l IH]; [reflexivity |]. cbn.
  unfold freed_bindings in *. rewrite omap_app.
  change (omap _ (teardown_events w n)) with (freed_bindings (teardown_events w n)).
  rewrite freed_bindings_teardown, IH.
  destruct (binding_of n w) as [[a b] |]; reflexivity.
Qed.

Lemma mark_invalid_lookup l w (n : nat) :
  nc_live (mark_invalid l w) !! n =
  (λ s, NcSession (data s) (if bool_decide (n ∈ l) then NC_STATUS_INVALID else status s))
    <$> nc_live w !! n.
Proof.
  unfold mark_invalid. cbn. induction l as [| m l IH]; cbn.
  - destruct (nc_live w !! n) as [[d st] |]; reflexivity.
  - destruct (decide (m = n)) as [-> |].
    + rewrite lookup_alter_eq, IH.
      rewrite (bool_decide_eq_true_2 (n ∈ n :: l)) by left.
      destruct (nc_live w !! n) as [[d st] |]; reflexivity.
    + rewrite lookup_alter_ne, IH by assumption.
      destruct (nc_live w !! n) as [[d st] |]; [| reflexivity]. cbn.
      rewrite (bool_decide_ext (n ∈ m :: l) (n ∈ l)); [reflexivity |].
      rewrite elem_of_cons. intuition congruence.
Qed.

Lemma mark_invalid_ok l w (n : nat) : session_ok n w → session_ok n (mark_invalid l w).
Proof.
  intros (sess & Hl & Hd). unfold session_ok. rewrite mark_invalid_lookup, Hl. cbn.
  eexists. split; [reflexivity |]. exact Hd.
Qed.

Lemma is_running_ext (m : nat) w w1 :
  nc_live w1 !! m = nc_live w !! m → is_running w1 m = is_running w m.
Proof. unfold is_running. intros ->. reflexivity. Qed.

(** The loop of [nc_ps_clear] without [all]: the sessions that are no longer
    running are torn down, the others are kept and stay as they were. *)
Lemma clear_invalid_spec l :
  ∀ w, NoDup l → (∀ n, n ∈ l → session_ok n w) →
  ∃ w', clear_invalid l free_ds w = Some (List.filter (is_running w) l, w') ∧
    trace w' = trace w ++
      flat_map (teardown_events w) (List.filter (λ n, negb (is_running w n)) l) ∧
    nc_ps w' = nc_ps w ∧ control w' = control w ∧ quit w' = quit w ∧
    (∀ m, session_ok m w → m ∉ List.filter (λ n, negb (is_running w n)) l →
          session_ok m w' ∧ binding_of m w' = binding_of m w ∧
          nc_live w' !! m = nc_live w !! m).
Proof.
  induction l as [| n l IH]; intros w Hnd Hok.
  - exists w. cbn. rewrite app_nil_r. repeat split; auto.
  - apply NoDup_cons in Hnd as [Hnl Hnd].
    assert (Hn : session_ok n w) by (apply Hok; left).
    destruct Hn as (sess & Hl & Hd).
    assert (Hn : session_ok n w) by (exists sess; auto).
    assert (Hrun : is_running w n = bool_decide (status sess = NC_STATUS_RUNNING))
      by (unfold is_running; rewrite Hl; reflexivity).
    cbn -[nc_session_free]. rewrite Hl. cbn -[nc_session_free]. rewrite !Hrun.
    destruct (decide (status sess = NC_STATUS_RUNNING)) as [Hst | Hst].
    + rewrite (bool_decide_eq_false_2 (status sess ≠ NC_STATUS_RUNNING)) by auto.
      rewrite !(bool_decide_eq_true_2 _ Hst). cbn -[nc_session_free].
      destruct (IH w Hnd (λ m Hm, Hok m (list_elem_of_further _ _ _ Hm)))
        as (w' & Hci & Htr & Hps & Hc & Hq & Hkeep).
      rewrite Hci. cbn. exists w'. auto 10.
    + rewrite (bool_decide_eq_true_2 (status sess ≠ NC_STATUS_RUNNING)) by auto.
      rewrite !(bool_decide_eq_false_2 _ Hst). cbn -[nc_session_free].
      destruct (nc_session_free_spec n w Hn)
        as (w1 & Hf & Htr & Hlive & Hheap & Hps & Hc & Hq).
      assert (Hother : ∀ m, session_ok m w → m ≠ n →
                session_ok m w1 ∧ binding_of m w1 = binding_of m w ∧
                nc_live w1 !! m = nc_live w !! m).
      { intros m Hm Hne. apply (nc_session_free_other n m w w1); auto. }
      assert (Hrest : ∀ m, m ∈ l →
                session_ok m w1 ∧ binding_of m w1 = binding_of m w ∧
                nc_live w1 !! m = nc_live w !! m).
      { intros m Hm. apply Hother.
        - apply Hok. right. exact Hm.
        - intros ->. contradiction. }
      destruct (IH w1 Hnd (λ m Hm, proj1 (Hrest m Hm)))
        as (w' & Hci & Htr' & Hps' & Hc' & Hq' & Hkeep).
      assert (Hfilt : List.filter (λ m, negb (is_running w1 m)) l
                      = List.filter (λ m, negb (is_running w m)) l).
      { apply List.filter_ext_in. intros m Hm. f_equal.
        apply is_running_ext, Hrest, list_elem_of_In, Hm. }
      rewrite Hfilt in Htr', Hkeep.
      rewrite Hf. cbn -[nc_session_free]. rewrite Hci.
      exists w'. split; [| split; [| split; [| split; [| split]]]]; try congruence.
      * do 2 f_equal. apply List.filter_ext_in. intros m Hm.
        apply is_running_ext, Hrest, list_elem_of_In, Hm.
      * rewrite Htr', Htr, <- app_assoc. do 2 f_equal.
        assert (Hsub : ∀ m, m ∈ List.filter (λ m, negb (is_running w m)) l → m ∈ l).
        { intros m Hm. apply list_elem_of_In, List.filter_In in Hm as [Hm _].
          apply list_elem_of_In, Hm. }
        revert Hsub. generalize (List.filter (λ m, negb (is_running w m)) l).
        intros k Hsub. induction k as [| m k IHk]; [reflexivity |]. cbn.
        rewrite (teardown_events_ext m w w1) by (apply Hrest, Hsub; left).
        f_equal. apply IHk. intros x Hx. apply Hsub. right. exact Hx.
      * intros m Hm Hnin. rewrite not_elem_of_cons in Hnin. destruct Hnin as [Hne Hnin].
        destruct (Hother m Hm Hne) as (Hm1 & Hb1 & Hl1).
        destruct (Hkeep m Hm1 Hnin) as (Hm' & Hb' & Hl').
        split; [exact Hm' |]. split; congruence.
Qed.

(** The processing thread leaves its loop: [nc_ps_clear] with [all] set,
    then [nc_thread_destroy]. *)
Lemma process_cleanup_spec w :
  NoDup (nc_ps w) → (∀ n, n ∈ nc_ps w → session_ok n w) →
  ∃ w', process_cleanup w = Some w' ∧
    trace w' = trace w ++ E_nc_ps_clear 1 ::
                 flat_map (teardown_events w) (nc_ps w) ++ [E_nc_thread_destroy] ∧
    nc_ps w' = [] ∧
    (∀ n, n ∈ nc_ps w → nc_live w' !! n = None) ∧
    (∀ n a b, n ∈ nc_ps w → binding_of n w = Some (a, b) → heap w' !! a = None) ∧
    control w' = control w ∧ quit w' = quit w.
Proof.
  intros Hnd Hok. unfold process_cleanup, nc_ps_clear.
  rewrite bool_decide_eq_true_2 by discriminate.
  destruct (free_sessions_spec (nc_ps w) (emit (E_nc_ps_clear 1) w) Hnd Hok)
    as (w' & Hfs & Htr & Hgone & Hfreed & _ & _ & Hps & Hc & Hq).
  change (nc_ps (emit (E_nc_ps_clear 1) w)) with (nc_ps w).
  rewrite Hfs. cbn. eexists. split; [reflexivity |]. cbn.
  rewrite Htr. cbn. rewrite <- !app_assoc. repeat split; auto.
Qed.

(** The body of the loop of [process_loop] when [nc_ps_poll] returns -1
    or 3. *)
Lemma process_body_clear (e : worker_env) (p : ptr) w :
  nc_ps w ≠ [] → poll_rc e = -1 ∨ poll_rc e = 3 →
  process_body e p w =
  nc_ps_clear 0 free_ds (nc_ps_poll e w).2 ≫= λ w', Some (p, usleep 250 w').
Proof.
  intros Hne Hrc. unfold process_body, nc_ps_session_count.
  rewrite bool_decide_eq_true_2 by (destruct (nc_ps w); [contradiction | discriminate]).
  cbn -[nc_ps_clear]. destruct Hrc as [-> | ->]; reflexivity.
Qed.

End Drain.

(** ** The processing thread and the main thread *)

Section Threads.

Implicit Types (s : sys) (w : world).

Lemma step_joined (t : tick) s s' : step t s = Running s' → joined s → joined s'.
Proof.
  unfold joined. destruct t as [sig | e | e]; unfold step.
  - destruct (signal_handler sig (wld s)); intros [= <-]; cbn; auto.
  - unfold main. destruct (mpc s) eqn:Hm.
    + destruct (server_init (init_ok e) (wld s)) as [rc w].
      case_bool_decide; intros [= <-]; cbn; auto.
      intros _ [? | ?]; discriminate.
    + case_bool_decide; intros [= <-]; cbn; intros _ [? | ?]; discriminate.
    + destruct (accept_body (m_accept e) (wld s)); intros [= <-]; cbn.
      intros _ [? | ?]; discriminate.
    + case_bool_decide; intros [= <-]; cbn; auto.
      rewrite Hm. intros _ [? | ?]; discriminate.
    + case_bool_decide; intros [= <-]; cbn; auto.
  - unfold process_loop. destruct (wpc s) eqn:Hw.
    + intros [= <-]. rewrite Hw. auto.
    + case_bool_decide.
      * intros [= <-]; cbn. intros Hj Hm. destruct (Hj Hm); discriminate.
      * destruct (process_cleanup (wld s)); intros [= <-]; cbn; auto.
    + destruct (process_body e (w_ncs s) (wld s)) as [[p w] |]; intros [= <-]; cbn.
      intros Hj Hm. destruct (Hj Hm); discriminate.
    + intros [= <-]. rewrite Hw. auto.
Qed.

Lemma run_joined (ts : list tick) :
  ∀ s s', run ts s = Running s' → joined s → joined s'.
Proof.
  induction ts as [| t ts IH]; intros s s'; cbn.
  - intros [= <-]. auto.
  - destruct (step t s) as [s1 | |] eqn:Hs; try discriminate.
    intros Hr Hj. apply (IH s1 s' Hr). exact (step_joined t s s1 Hs Hj).
Qed.

(** C2 (as the code has it): when [nc_ps_poll] returns -1 the processing
    thread does what it does when 3 is returned: it frees the sessions of the
    poll structure that are no longer running, keeps the others, sleeps 250
    microseconds and is back at the test of its loop, with the flag, the main
    thread and its exit status untouched. *)
Theorem poll_failure_handled_as_status_change (e : worker_env) (s : sys) :
  wpc s = W_body → nc_ps (wld s) ≠ [] →
  poll_rc e = -1 ∨ poll_rc e = 3 →
  NoDup (nc_ps (wld s)) → (∀ n : nat, n ∈ nc_ps (wld s) → session_ok n (wld s)) →
  let wp := (nc_ps_poll e (wld s)).2 in
  ∃ w' : world,
    step (T_worker e) s = Running (Sys w' (mpc s) (ret s) W_cond (w_ncs s)) ∧
    control w' = control (wld s) ∧
    nc_ps w' = List.filter (is_running wp) (nc_ps (wld s)) ∧
    trace w' = trace (wld s) ++ [E_nc_ps_poll (poll_rc e); E_nc_ps_clear 0] ++
      flat_map (teardown_events wp)
               (List.filter (λ n, negb (is_running wp n)) (nc_ps (wld s))) ++
      [E_usleep 250].
Proof.
  intros Hw Hne Hrc Hnd Hok wp.
  cbn -[nc_ps_poll]. unfold process_loop. rewrite Hw.
  rewrite (process_body_clear e (w_ncs s) (wld s) Hne Hrc). fold wp.
  unfold nc_ps_clear. rewrite bool_decide_eq_false_2 by (intros H; apply H; reflexivity).
  assert (Hok' : ∀ n, n ∈ nc_ps (wld s) → session_ok n (emit (E_nc_ps_clear 0) wp)).
  { intros n Hn. exact (mark_invalid_ok (poll_invalid e) (wld s) n (Hok n Hn)). }
  destruct (clear_invalid_spec (nc_ps (wld s)) (emit (E_nc_ps_clear 0) wp) Hnd Hok')
    as (w' & Hci & Htr & Hps & Hc & _).
  change (nc_ps (emit (E_nc_ps_clear 0) wp)) with (nc_ps (wld s)).
  rewrite Hci. cbn. eexists. split; [reflexivity |]. cbn.
  rewrite Hc, Htr. cbn. rewrite <- !app_assoc. repeat split.
Qed.

Lemma loop_calls_snoc (tr : list event) (ev : event) :
  loop_call ev = false → loop_calls (tr ++ [ev]) = loop_calls tr.
Proof.
  intros Hev. unfold loop_calls. rewrite List.filter_app. cbn. rewrite Hev.
  apply app_nil_r.
Qed.

Lemma signal_handler_returns (sig : Z) w w' :
  signal_handler sig w = Returns w' →
  control w' ≠ LOOP_CONTINUE ∧ nc_ps w' = nc_ps w ∧ trace w' = trace w.
Proof.
  unfold signal_handler.
  destruct (is_termination sig); [case_bool_decide |]; try discriminate.
  - intros [= <-]. cbn. auto.
  - destruct (is_restart sig); [| discriminate]. intros [= <-]. cbn. auto.
Qed.

Lemma step_idle (t : tick) s :
  idle s → no_iteration (trace (wld s)) (step t s).
Proof.
  intros (Hc & Hm & Hw & Hps). destruct s as [w m r wp p]. cbn in *.
  destruct t as [sig | e | e]; cbn.
  - destruct (signal_handler sig w) as [w' | st] eqn:Hs; cbn; [| reflexivity].
    destruct (signal_handler_returns sig w w' Hs) as (Hc' & Hps' & Htr').
    unfold idle. cbn. rewrite Hps', Htr'. auto.
  - unfold main. cbn. destruct m; try congruence.
    + destruct (init_ok e); cbn;
        [change (bool_decide (EXIT_SUCCESS ≠ 0)) with false
        | change (bool_decide (EXIT_FAILURE ≠ 0)) with true];
        cbn; unfold idle; cbn;
        rewrite !loop_calls_snoc by reflexivity; repeat split; auto; discriminate.
    + rewrite bool_decide_eq_false_2 by exact Hc.
      cbn. unfold idle. cbn. repeat split; auto; discriminate.
    + case_bool_decide; cbn; unfold idle; cbn.
      * rewrite !loop_calls_snoc by reflexivity. repeat split; auto; discriminate.
      * repeat split; auto.
    + case_bool_decide; cbn; unfold idle; cbn;
        rewrite !loop_calls_snoc by reflexivity; repeat split; auto; discriminate.
  - unfold process_loop. cbn. destruct wp; try congruence.
    + cbn. unfold idle. cbn. repeat split; auto.
    + rewrite bool_decide_eq_false_2 by exact Hc.
      unfold process_cleanup, nc_ps_clear.
      rewrite bool_decide_eq_true_2 by discriminate.
      cbn. rewrite (Hps eq_refl). cbn. unfold idle. cbn.
      rewrite !loop_calls_snoc by reflexivity. repeat split; auto; discriminate.
    + cbn. unfold idle. cbn. repeat split; auto.
Qed.

Lemma run_idle (ts : list tick) :
  ∀ s, idle s → no_iteration (trace (wld s)) (run ts s).
Proof.
  induction ts as [| t ts IH]; intros s Hi; cbn.
  - split; [exact Hi | reflexivity].
  - pose proof (step_idle t s Hi) as Hs.
    destruct (step t s) as [s1 | st w1 |]; cbn in Hs; [| exact Hs | exact Hs].
    destruct Hs as [Hi1 Hl1]. pose proof (IH s1 Hi1) as Hr.
    destruct (run ts s1) as [s' | st w' |]; cbn in *.
    + destruct Hr as [Hi' Hl']. split; [exact Hi' | congruence].
    + congruence.
    + exact Hr.
Qed.

(** C1 (what the code does): the flag is never set back to LOOP_CONTINUE.
    When [main] is at the label [restart] with the flag at LOOP_RESTART, then
    whatever the two threads do, whatever signals arrive and however long the
    process runs, the flag never is LOOP_CONTINUE again, neither the accept
    loop nor the loop of the processing thread ever enters its body, and no
    call of [nc_accept], [nc_ps_poll] or [usleep] is made: the process
    initialises and cleans up again and again, until a signal ends it. *)
Theorem restart_run_never_iterates (s : sys) (ts : list tick) :
  mpc s = M_restart → control (wld s) = LOOP_RESTART →
  wpc s = W_none ∨ wpc s = W_done →
  match run ts s with
  | Running s' =>
      control (wld s') ≠ LOOP_CONTINUE ∧
      mpc s' ≠ M_accept_body ∧ wpc s' ≠ W_body ∧
      loop_calls (trace (wld s')) = loop_calls (trace (wld s))
  | Exited _ w => loop_calls (trace w) = loop_calls (trace (wld s))
  | Undefined => False
  end.
Proof.
  intros Hm Hc Hw.
  assert (Hi : idle s).
  { unfold idle. rewrite Hm, Hc. repeat split; auto; try discriminate;
      destruct Hw as [-> | ->]; discriminate. }
  pose proof (run_idle ts s Hi) as Hr.
  destruct (run ts s) as [s' | st w' |]; cbn in Hr; [| exact Hr | exact Hr].
  destruct Hr as [(Hc' & Hm' & Hw' & _) Hl]. auto.
Qed.

End Threads.

(** ** The poll structure stays well formed *)

Section Reachable.

Implicit Types (s : sys) (w : world).

Lemma session_ok_ext (n : nat) w w' :
  nc_live w' = nc_live w → heap w' = heap w → session_ok n w → session_ok n w'.
Proof.
  intros Hnl Hh (sess & Hl & Hd). exists sess. rewrite Hnl, Hh. auto.
Qed.

Lemma session_ok_live (n : nat) w : session_ok n w → n ≠ fresh (dom (nc_live w)).
Proof.
  intros (sess & Hl & _) ->. rewrite fresh_live_None in Hl. discriminate.
Qed.

(** A new session and a new binding leave the sessions there are as they
    were. *)
Lemma session_ok_insert (m : nat) w w' (sess : nc_session) (b : np2_sessions) :
  nc_live w' = <[fresh (dom (nc_live w)) := sess]> (nc_live w) →
  heap w' = heap w ∨ heap w' = <[fresh (dom (heap w)) := b]> (heap w) →
  session_ok m w → session_ok m w'.
Proof.
  intros Hnl Hh Hm. pose proof (session_ok_live m w Hm) as Hne.
  destruct Hm as (sm & Hl & Hd). exists sm. rewrite Hnl.
  rewrite lookup_insert_ne by congruence. split; [exact Hl |].
  destruct (data sm) as [a |]; [| exact I].
  destruct Hd as (b' & Hb & Hn). exists b'. split; [| exact Hn].
  destruct Hh as [-> | ->]; [exact Hb |].
  rewrite lookup_insert_ne; [exact Hb |].
  intros <-. rewrite fresh_heap_None in Hb. discriminate.
Qed.

Lemma ps_ok_snoc w w' :
  ps_ok w →
  nc_ps w' = nc_ps w ++ [fresh (dom (nc_live w))] →
  (∀ m, session_ok m w → session_ok m w') →
  session_ok (fresh (dom (nc_live w))) w' →
  ps_ok w'.
Proof.
  intros [Hnd Hok] Hps Hold Hnew. split.
  - rewrite Hps. apply NoDup_app. split; [exact Hnd |]. split; [| apply NoDup_singleton].
    intros x Hx. rewrite list_elem_of_singleton. exact (session_ok_live x w (Hok x Hx)).
  - intros n. rewrite Hps, elem_of_app, list_elem_of_singleton.
    intros [Hn | ->]; [apply Hold, Hok, Hn | exact Hnew].
Qed.

Lemma accept_body_ps_ok (e : accept_env) w :
  ps_ok w → ∃ w', accept_body e w = Some w' ∧ ps_ok w'.
Proof.
  intros Hok. destruct (accept_body_cases e w) as (w' & Hab & Hcase).
  exists w'. split; [exact Hab |].
  destruct Hcase as [(Hrc & ->) | [(Hrc & Hps & Hh & Hso & Hnl & _)
                                  | (Hrc & w2 & _ & -> & Hps & Hh & Hso & Hnl & _)]].
  - exact Hok.
  - destruct Hok as [Hnd Hok]. split; rewrite Hps; [exact Hnd |].
    intros n Hn. apply (session_ok_ext n w); auto.
  - apply (ps_ok_snoc w); [exact Hok | cbn; rewrite Hps; reflexivity | |].
    + intros m Hm. eapply (session_ok_insert m w); [exact Hnl | right; exact Hh | exact Hm].
    + eexists. cbn. rewrite Hnl, lookup_insert_eq. split; [reflexivity |]. cbn.
      eexists. rewrite Hh, lookup_insert_eq. split; reflexivity.
Qed.

Lemma process_body_ps_ok (e : worker_env) (p : ptr) w :
  (poll_rc e = 5 → chan_ok e = true) → ps_ok w →
  ∃ p' w', process_body e p w = Some (p', w') ∧ ps_ok w'.
Proof.
  intros Hch [Hnd Hok]. unfold process_body, nc_ps_session_count.
  case_bool_decide as Hlen; [| do 2 eexists; split; [reflexivity | split; assumption]].
  cbn -[nc_ps_clear]. set (wp := emit _ (mark_invalid _ w)).
  assert (Hokp : ∀ n, n ∈ nc_ps w → session_ok n wp)
    by (intros n Hn; exact (mark_invalid_ok (poll_invalid e) w n (Hok n Hn))).
  destruct (bool_decide (poll_rc e = -1) || bool_decide (poll_rc e = 3)) eqn:Hrc.
  - unfold nc_ps_clear. rewrite bool_decide_eq_false_2 by (intros H; apply H; reflexivity).
    destruct (clear_invalid_spec (nc_ps w) (emit (E_nc_ps_clear 0) wp) Hnd Hokp)
      as (w' & Hci & _ & _ & _ & _ & Hkeep).
    change (nc_ps (emit (E_nc_ps_clear 0) wp)) with (nc_ps w).
    rewrite Hci. cbn. do 2 eexists. split; [reflexivity |]. split; cbn.
    + apply NoDup_ListNoDup, List.NoDup_filter, NoDup_ListNoDup, Hnd.
    + intros n Hn. apply list_elem_of_In, List.filter_In in Hn as [Hn Hr].
      apply list_elem_of_In in Hn. apply (Hkeep n (Hokp n Hn)).
      intros Hin. apply list_elem_of_In, List.filter_In in Hin as [_ Hr'].
      rewrite Hr in Hr'. discriminate.
  - destruct (bool_decide (poll_rc e = 5)) eqn:H5.
    + apply bool_decide_eq_true_1 in H5.
      unfold nc_ps_accept_ssh_channel. rewrite (Hch H5).
      do 2 eexists. split; [reflexivity |].
      apply (ps_ok_snoc wp); [split; [exact Hnd | exact Hokp] | reflexivity | |].
      * intros m Hm. eapply (session_ok_insert m wp); [reflexivity | left; reflexivity | exact Hm].
        Unshelve. exact (Np2Sessions NULL NULL SR_DS_RUNNING 0).
      * eexists. cbn. rewrite lookup_insert_eq. split; [reflexivity | exact I].
    + do 2 eexists. split; [reflexivity |]. split; [exact Hnd | exact Hokp].
Qed.

Lemma process_cleanup_ps_ok w : ps_ok w → ∃ w', process_cleanup w = Some w' ∧ ps_ok w'.
Proof.
  intros [Hnd Hok].
  destruct (process_cleanup_spec w Hnd Hok) as (w' & Hpc & _ & Hps & _).
  exists w'. split; [exact Hpc |]. split; rewrite Hps; [constructor |].
  intros n Hn. inversion Hn.
Qed.

Lemma step_ps_ok (t : tick) s :
  channel_accepted t = true → ps_ok (wld s) →
  match step t s with
  | Running s' => ps_ok (wld s')
  | Exited _ _ => True
  | Undefined => False
  end.
Proof.
  intros Ht Hok. destruct t as [sig | e | e]; cbn.
  - destruct (signal_handler sig (wld s)) as [w' | st] eqn:Hs; [| exact I].
    cbn. unfold signal_handler in Hs.
    destruct (is_termination sig); [case_bool_decide |]; try discriminate.
    + injection Hs as <-. exact Hok.
    + destruct (is_restart sig); [| discriminate]. injection Hs as <-. exact Hok.
  - unfold main. destruct (mpc s).
    + unfold server_init. destruct (init_ok e); cbn.
      * change (bool_decide (EXIT_SUCCESS ≠ 0)) with false. cbn.
        split; [constructor | intros n Hn; inversion Hn].
      * change (bool_decide (EXIT_FAILURE ≠ 0)) with true. cbn. exact Hok.
    + case_bool_decide; exact Hok.
    + destruct (accept_body_ps_ok (m_accept e) (wld s) Hok) as (w' & -> & Hok').
      exact Hok'.
    + case_bool_decide; exact Hok.
    + case_bool_decide; [exact Hok | exact I].
  - unfold process_loop. destruct (wpc s); try exact Hok.
    + case_bool_decide; [exact Hok |].
      destruct (process_cleanup_ps_ok (wld s) Hok) as (w' & -> & Hok'). exact Hok'.
    + cbn in Ht.
      assert (Hch : poll_rc e = 5 → chan_ok e = true).
      { intros H5. rewrite (bool_decide_eq_true_2 _ H5) in Ht. exact Ht. }
      destruct (process_body_ps_ok e (w_ncs s) (wld s) Hch Hok) as (p' & w' & -> & Hok').
      exact Hok'.
Qed.

(** In every execution from the start of the process in which new SSH
    channels are accepted, no step is undefined and the poll structure is
    well formed throughout. *)
Lemma run_ps_ok (ts : list tick) :
  ∀ s, forallb channel_accepted ts = true → ps_ok (wld s) →
  match run ts s with
  | Running s' => ps_ok (wld s')
  | Exited _ _ => True
  | Undefined => False
  end.
Proof.
  induction ts as [| t ts IH]; intros s Hts Hok; cbn; [exact Hok |].
  cbn in Hts. apply andb_prop in Hts as [Ht Hts].
  pose proof (step_ps_ok t s Ht Hok) as Hs.
  destruct (step t s) as [s1 | st w1 |]; [| exact I | exact Hs].
  exact (IH s1 Hts Hs).
Qed.

Lemma boot_ps_ok : ps_ok (wld boot).
Proof. split; [constructor | intros n Hn; inversion Hn]. Qed.

End Reachable.

(** ** Leaving the loops *)

Section Shutdown.

(** The drain of the processing thread, taken alone.  When the thread finds
    the flag changed at the test of its loop and the poll structure is well
    formed, it tears down every session that is in the poll structure at that
    moment, each one once and in the order of the structure, empties the
    structure and then calls [nc_thread_destroy]; the main thread, once out
    of the accept loop, stays at [pthread_join] until the thread has
    returned; and in the executions from the label [restart] in which every
    SSH channel reported is accepted, the poll structure is well formed and
    the main thread is at [cleanup] or back at [restart] only when no
    processing thread is inside its loop.  A session registered after the
    drain is not covered: see the section on the late accept below. *)
Theorem drain_then_join (s : sys) (e : worker_env) (em : main_env) :
  (wpc s = W_cond → control (wld s) ≠ LOOP_CONTINUE →
   NoDup (nc_ps (wld s)) → (∀ n : nat, n ∈ nc_ps (wld s) → session_ok n (wld s)) →
   ∃ (w' : world) (evs : list event),
     step (T_worker e) s = Running (Sys w' (mpc s) (ret s) W_done (w_ncs s)) ∧
     trace w' = trace (wld s) ++ evs ∧
     evs = E_nc_ps_clear 1 :: flat_map (teardown_events (wld s)) (nc_ps (wld s))
             ++ [E_nc_thread_destroy] ∧
     freed_sessions evs = nc_ps (wld s) ∧
     freed_bindings evs = omap (λ n, fst <$> binding_of n (wld s)) (nc_ps (wld s)) ∧
     nc_ps w' = [] ∧
     (∀ n : nat, n ∈ nc_ps (wld s) → nc_live w' !! n = None) ∧
     (∀ (n a : nat) (b : np2_sessions),
        n ∈ nc_ps (wld s) → binding_of n (wld s) = Some (a, b) → heap w' !! a = None)) ∧
  (mpc s = M_join →
   step (T_main em) s =
   if bool_decide (wpc s = W_done)
   then Running (Sys (emit E_pthread_join (wld s)) M_cleanup (ret s) (wpc s) (w_ncs s))
   else Running s) ∧
  (∀ (ts : list tick) (s' : sys),
     forallb channel_accepted ts = true →
     run ts boot = Running s' →
     NoDup (nc_ps (wld s')) ∧
     (∀ n : nat, n ∈ nc_ps (wld s') → session_ok n (wld s')) ∧
     (mpc s' = M_restart ∨ mpc s' = M_cleanup → wpc s' = W_none ∨ wpc s' = W_done)).
Proof.
  split; [| split].
  - intros Hw Hc Hnd Hok.
    destruct (process_cleanup_spec (wld s) Hnd Hok)
      as (w' & Hpc & Htr & Hps & Hgone & Hfreed & _ & _).
    exists w'. eexists. cbn. unfold process_loop. rewrite Hw.
    rewrite bool_decide_eq_false_2 by exact Hc. rewrite Hpc.
    split; [reflexivity |]. split; [exact Htr |]. split; [reflexivity |].
    repeat split; try assumption.
    + unfold freed_sessions. cbn. rewrite omap_app. cbn. rewrite app_nil_r.
      apply freed_sessions_flat_map.
    + unfold freed_bindings. cbn. rewrite omap_app. cbn. rewrite app_nil_r.
      apply freed_bindings_flat_map.
  - intros Hm. cbn. unfold main. rewrite Hm. reflexivity.
  - intros ts s' Hts Hrun.
    pose proof (run_ps_ok ts boot Hts boot_ps_ok) as Hok. rewrite Hrun in Hok.
    destruct Hok as [Hnd Hok]. split; [exact Hnd |]. split; [exact Hok |].
    apply (run_joined ts boot s' Hrun). intros _. left. reflexivity.
Qed.

End Shutdown.

(** ** The statements at concrete inputs *)

(** The poll structure of [w_bound] is well formed. *)
Lemma w_bound_ok : ∀ n : nat, n ∈ nc_ps w_bound → session_ok n w_bound.
Proof.
  intros n Hn. apply list_elem_of_singleton in Hn. subst n.
  eexists. split; [reflexivity |]. cbn. eexists. split; reflexivity.
Qed.

(** A session is accepted next to session 7 and its binding fails. *)
Lemma bind_failure_atomic_witness :
  ∃ w', accept_body accept_bind_fails w_bound = Some w' ∧
    nc_ps w' = [7%nat] ∧ heap w' = heap w_bound ∧ sr_open w' = sr_open w_bound ∧
    dslock w' = dslock w_bound.
Proof.
  destruct (bind_failure_atomic accept_bind_fails w_bound
              (nc_accept 1 w_bound).2 (from_option snd w_bound
                 (connect_ds bind_fails (nc_accept 1 w_bound).1.2 (nc_accept 1 w_bound).2))
              (nc_accept 1 w_bound).1.2 EXIT_FAILURE)
    as (n & w' & evs & _ & Hab & Hps & Hh & Hso & Hd & _).
  - reflexivity.
  - vm_compute. reflexivity.
  - discriminate.
  - exists w'. repeat split; assumption.
Defined.

(** A session is accepted next to session 7 and bound. *)
Lemma accept_binds_before_registering_witness :
  ∃ w', accept_body accept_ok w_bound = Some w' ∧
    ∀ m : nat, m ∈ nc_ps w' → bound m w'.
Proof.
  destruct (accept_binds_before_registering accept_ok w_bound) as (w' & Hab & _ & Hinv).
  exists w'. split; [exact Hab |]. apply Hinv.
  intros m Hm. apply list_elem_of_singleton in Hm. subst m.
  exists (NcSession (Some 3%nat) NC_STATUS_RUNNING), 3%nat,
    (Np2Sessions (Some 7%nat) (Some 5%nat) SR_DS_RUNNING SR_SESS_DEFAULT), 5%nat.
  repeat split; reflexivity.
Defined.

(** The thread finds LOOP_STOP with session 7 in the poll structure. *)
Lemma drain_then_join_witness :
  ∃ w', step (T_worker poll_timeout) s_stopping
          = Running (Sys w' M_join EXIT_SUCCESS W_done NULL) ∧
    trace w' = [E_nc_ps_clear 1; E_sr_session_stop 5; E_clean_dslock (Some 7%nat);
                E_free 3; E_nc_session_free 7; E_nc_thread_destroy] ∧
    nc_ps w' = [].
Proof.
  destruct (drain_then_join s_stopping poll_timeout main_ok) as (Hdrain & _ & _).
  destruct Hdrain as (w' & evs & Hstep & Htr & Hevs & _ & _ & Hps & _).
  - reflexivity.
  - discriminate.
  - apply NoDup_singleton.
  - exact w_bound_ok.
  - exists w'. split; [exact Hstep |]. split; [| exact Hps].
    rewrite Htr, Hevs. reflexivity.
Defined.

(** [nc_ps_poll] fails with session 7 running: the session is kept. *)
Lemma poll_failure_handled_as_status_change_witness :
  ∃ w', step (T_worker poll_fails) s_polling
          = Running (Sys w' M_accept_cond EXIT_SUCCESS W_cond NULL) ∧
    control w' = LOOP_CONTINUE ∧ nc_ps w' = [7%nat].
Proof.
  destruct (poll_failure_handled_as_status_change poll_fails s_polling)
    as (w' & Hstep & Hc & Hps & _).
  - reflexivity.
  - discriminate.
  - left. reflexivity.
  - apply NoDup_singleton.
  - exact w_bound_ok.
  - exists w'. split; [exact Hstep |]. split; [exact Hc | exact Hps].
Defined.

(** C2, as the specification states it, fails: with one bound session in
    the poll structure and [nc_ps_poll] returning -1, the processing thread
    has not returned, the flag is still LOOP_CONTINUE, the exit status of
    [main] is still EXIT_SUCCESS, and the thread polls again in its next
    iteration. *)
Lemma poll_failure_not_fatal :
  ∃ s', run [T_worker poll_fails; T_worker poll_timeout; T_worker poll_timeout] s_polling
          = Running s' ∧
    wpc s' ≠ W_done ∧ control (wld s') = LOOP_CONTINUE ∧ ret s' = EXIT_SUCCESS ∧
    nc_ps (wld s') = [7%nat] ∧
    trace (wld s') = [E_nc_ps_poll (-1); E_nc_ps_clear 0; E_usleep 250; E_nc_ps_poll 0].
Proof.
  eexists. split; [vm_compute; reflexivity |].
  split; [discriminate |]. repeat split; reflexivity.
Qed.

(** The run [first_cycle] ends at the label [restart] with the flag at
    LOOP_RESTART and the one session torn down. *)
Lemma first_cycle_restarts :
  run first_cycle boot = Running s_restarted ∧
  mpc s_restarted = M_restart ∧ control (wld s_restarted) = LOOP_RESTART ∧
  wpc s_restarted = W_done ∧
  trace (wld s_restarted) =
    [E_server_init 0; E_pthread_create; E_nc_accept 1 (Some 0%nat); E_calloc (Some 0%nat);
     E_sr_session_start_user 0 (Some 0%nat); E_nc_session_set_data 0 0;
     E_nc_ps_add_session (Some 0%nat); E_nc_ps_poll 0;
     E_nc_ps_clear 1; E_sr_session_stop 0; E_clean_dslock (Some 0%nat); E_free 0;
     E_nc_session_free 0; E_nc_thread_destroy; E_pthread_join; E_cleanup].
Proof. vm_compute. repeat split; reflexivity. Qed.

(** After [first_cycle] the loop calls are those of the first cycle, for
    good. *)
Lemma restart_run_never_iterates_witness :
  ∃ s', run second_cycle s_restarted = Running s' ∧
    control (wld s') ≠ LOOP_CONTINUE ∧
    loop_calls (trace (wld s')) = [E_nc_accept 1 (Some 0%nat); E_nc_ps_add_session (Some 0%nat);
                                   E_nc_ps_poll 0].
Proof.
  pose proof (restart_run_never_iterates s_restarted second_cycle eq_refl eq_refl
                (or_intror eq_refl)) as H.
  destruct (run second_cycle s_restarted) as [s' | st w |] eqn:Hrun.
  - exists s'. destruct H as (Hc & _ & _ & Hl).
    split; [reflexivity |]. split; [exact Hc |]. rewrite Hl. reflexivity.
  - vm_compute in Hrun. discriminate.
  - destruct H.
Defined.

(** The second cycle in full: initialisation, thread creation, the thread's
    cleanup, join and cleanup, twice, and not one call of [nc_accept]. *)
Lemma second_cycle_trace :
  ∃ s', run second_cycle s_restarted = Running s' ∧
    trace (wld s') = trace (wld s_restarted) ++
      [E_server_init 0; E_pthread_create; E_nc_ps_clear 1; E_nc_thread_destroy;
       E_pthread_join; E_cleanup;
       E_server_init 0; E_pthread_create; E_nc_ps_clear 1; E_nc_thread_destroy;
       E_pthread_join].
Proof. eexists. split; vm_compute; reflexivity. Qed.

(** ** Two remarks on the limits of the statements above *)

(** The processing thread registers the session of a new SSH channel without
    calling [connect_ds]: such a session is in the poll structure with no
    binding. *)
Remark ssh_channel_registered_unbound :
  ∃ (n : nat) (w' : world),
    process_body poll_channel NULL w_bound = Some (Some n, w') ∧
    nc_ps w' = [7%nat; n] ∧ binding_of n w' = None.
Proof. do 2 eexists. split; [vm_compute; reflexivity |]. split; reflexivity. Qed.

(** A session that [nc_accept] returns after the processing thread has left
    its loop is bound and registered all the same; the thread has returned,
    [pthread_join] does not wait, and the process ends with the session
    registered and its binding in place. *)
Remark late_accept_after_drain :
  ∃ w : world,
    run late_accept boot = Exited EXIT_SUCCESS w ∧
    nc_ps w = [0%nat] ∧ is_Some (binding_of 0 w) ∧ freed_sessions (trace w) = [].
Proof.
  eexists. split; [vm_compute; reflexivity |].
  split; [reflexivity |]. split; [| reflexivity]. eexists. vm_compute. reflexivity.
Qed.

(** ** A session accepted after the drain *)

Section LateAccept.

Implicit Types (s : sys) (w : world).

Lemma run_step_running (t : tick) (ts : list tick) s s1 :
  step t s = Running s1 → run (t :: ts) s = run ts s1.
Proof. intros H. cbn. rewrite H. reflexivity. Qed.

(** An iteration of the accept loop in which a session is accepted and its
    binding succeeds. *)
Lemma accept_body_bound (e : accept_env) w :
  acc_rc e = 1 → calloc_ok (acc_bind e) = true → sr_rc (acc_bind e) = SR_ERR_OK →
  let n := fresh (dom (nc_live w)) in
  let a := fresh (dom (heap w)) in
  let h := fresh (sr_open w) in
  ∃ w', accept_body e w = Some w' ∧
    control w' = control w ∧ quit w' = quit w ∧
    nc_ps w' = nc_ps w ++ [n] ∧
    nc_live w' !! n = Some (NcSession (Some a) NC_STATUS_RUNNING) ∧
    heap w' !! a = Some (Np2Sessions (Some n) (Some h) SR_DS_RUNNING SR_SESS_DEFAULT) ∧
    h ∈ sr_open w' ∧
    trace w' = trace w ++ [E_nc_accept 1 (Some n); E_calloc (Some a);
                           E_sr_session_start_user SR_ERR_OK (Some h);
                           E_nc_session_set_data n a; E_nc_ps_add_session (Some n)].
Proof.
  intros Hrc Hca Hsr n a h.
  rewrite (accept_body_one _ _ Hrc). rewrite nc_accept_one. fold n.
  set (w1 := emit _ _). change ((1, Some n, w1).2) with w1.
  assert (Hn : nc_live w1 !! n = Some (NcSession NULL NC_STATUS_RUNNING))
    by (subst w1; cbn; apply lookup_insert_eq).
  destruct (connect_ds_cases (acc_bind e) n w1 _ Hn)
    as (r & w2 & Hcon & Hc & Hq & _ & Hps & Hcase).
  rewrite Hcon.
  destruct Hcase as [(_ & [Hno | Hno] & _) | (-> & _ & _ & Hh & Ho & Hl & Htr)];
    [congruence | contradiction |].
  cbn. eexists. split; [reflexivity |]. cbn.
  rewrite Hc, Hq, Hps, Hh, Ho, Hl, Htr, Hsr. subst w1. cbn. fold n a h.
  split; [reflexivity |]. split; [reflexivity |]. split; [reflexivity |].
  split; [apply lookup_insert_eq |]. split; [apply lookup_insert_eq |].
  split; [apply elem_of_union_l, elem_of_singleton; reflexivity |].
  rewrite <- !app_assoc. reflexivity.
Qed.

(** C7 (what the code does): a session that [nc_accept] returns after the
    processing thread has drained the poll structure and returned is bound
    and registered like any other, and is never torn down.  The main thread
    leaves the accept loop, passes [pthread_join] without waiting and runs
    the cleanup; then the process ends, or is back at the label [restart],
    with that session still in the poll structure, alive, its binding in the
    heap and its sysrepo session open: between [nc_ps_add_session] and the
    end there is no call of [sr_session_stop], [np2srv_clean_dslock], [free]
    or [nc_session_free].  The thread, having returned, does nothing any
    more. *)
Theorem late_session_not_torn_down (s : sys) (e e1 e2 e3 : main_env) :
  mpc s = M_accept_body → wpc s = W_done → control (wld s) ≠ LOOP_CONTINUE →
  acc_rc (m_accept e) = 1 →
  calloc_ok (acc_bind (m_accept e)) = true → sr_rc (acc_bind (m_accept e)) = SR_ERR_OK →
  let n := fresh (dom (nc_live (wld s))) in
  let a := fresh (dom (heap (wld s))) in
  let h := fresh (sr_open (wld s)) in
  ∃ w',
    run [T_main e; T_main e1; T_main e2; T_main e3] s =
      (if bool_decide (control (wld s) = LOOP_RESTART)
       then Running (Sys w' M_restart (ret s) W_done (w_ncs s))
       else Exited (ret s) w') ∧
    nc_ps w' = nc_ps (wld s) ++ [n] ∧
    nc_live w' !! n = Some (NcSession (Some a) NC_STATUS_RUNNING) ∧
    heap w' !! a = Some (Np2Sessions (Some n) (Some h) SR_DS_RUNNING SR_SESS_DEFAULT) ∧
    h ∈ sr_open w' ∧
    trace w' = trace (wld s) ++
      [E_nc_accept 1 (Some n); E_calloc (Some a);
       E_sr_session_start_user SR_ERR_OK (Some h);
       E_nc_session_set_data n a; E_nc_ps_add_session (Some n);
       E_pthread_join; E_cleanup] ∧
    (∀ (ew : worker_env) (s' : sys), wpc s' = W_done → step (T_worker ew) s' = Running s').
Proof.
  intros Hm Hw Hc Hrc Hca Hsr n a h.
  destruct (accept_body_bound (m_accept e) (wld s) Hrc Hca Hsr)
    as (w1 & Hab & Hc1 & _ & Hps & Hl & Hh & Ho & Htr).
  fold n a h in Hps, Hl, Hh, Ho, Htr.
  destruct s as [w m r wp p]. cbn in Hm, Hw, Hc, Hab, Hc1, Hps, Htr. subst m wp.
  exists (emit E_cleanup (emit E_pthread_join w1)).
  split; [| split; [exact Hps | split; [exact Hl | split; [exact Hh | split; [exact Ho | split]]]]].
  - rewrite (run_step_running (T_main e) _ _ (Sys w1 M_accept_cond r W_done p))
      by (cbn; unfold main; cbn; rewrite Hab; reflexivity).
    rewrite (run_step_running (T_main e1) _ _ (Sys w1 M_join r W_done p))
      by (cbn; unfold main; cbn; rewrite Hc1, (bool_decide_eq_false_2 _ Hc); reflexivity).
    rewrite (run_step_running (T_main e2) _ _
               (Sys (emit E_pthread_join w1) M_cleanup r W_done p)) by reflexivity.
    cbn. unfold main. cbn. rewrite Hc1.
    destruct (bool_decide (control w = LOOP_RESTART)); reflexivity.
  - cbn. rewrite Htr, <- !app_assoc. reflexivity.
  - intros ew s' Hw'. cbn. unfold process_loop. rewrite Hw'. reflexivity.
Qed.

(** From the label [restart]: initialisation, SIGTERM while the main thread
    is in [nc_accept], the thread drains and returns, then [nc_accept]
    returns a session; the process ends with EXIT_SUCCESS and the session in
    place. *)
Lemma late_session_not_torn_down_witness :
  run late_prefix boot = Running s_drained ∧
  ∃ w', run [T_main main_ok; T_main main_ok; T_main main_ok; T_main main_ok] s_drained
          = Exited EXIT_SUCCESS w' ∧
    nc_ps w' = [0%nat] ∧
    nc_live w' !! 0%nat = Some (NcSession (Some 0%nat) NC_STATUS_RUNNING) ∧
    freed_sessions (trace w') = [].
Proof.
  split; [vm_compute; reflexivity |].
  destruct (late_session_not_torn_down s_drained main_ok main_ok main_ok main_ok)
    as (w' & Hrun & Hps & Hl & _ & _ & Htr & _);
    [reflexivity | reflexivity | discriminate | reflexivity | reflexivity | reflexivity |].
  exists w'. split; [exact Hrun |]. split; [exact Hps |]. split; [exact Hl |].
  rewrite Htr. reflexivity.
Defined.

(** The other way a session escapes the "once": the result of
    [nc_ps_accept_ssh_channel] is not looked at, so when it fails the session
    of the channel accepted before is registered a second time, and the
    drain then frees it twice. *)
Remark duplicate_registration :
  ∃ s', run dup_run boot = Running s' ∧
    nc_ps (wld s') = [0%nat; 1%nat; 1%nat] ∧
    step (T_worker poll_timeout) s' = Undefined.
Proof.
  eexists. split; [vm_compute; reflexivity |]. split; vm_compute; reflexivity.
Qed.

End LateAccept.

(** * Further properties of the code *)

(** ** The command line *)

Section CommandLine.

(** X1: the level stored for [-v] lies between NC_VERB_ERROR and
    NC_VERB_DEBUG whatever the argument, is the argument itself when that is
    in range, is the nearest bound otherwise, and grows with the argument. *)
Theorem normalize_verbose_clamps (c c' : Z) :
  NC_VERB_ERROR ≤ normalize_verbose c ≤ NC_VERB_DEBUG ∧
  (NC_VERB_ERROR ≤ c ≤ NC_VERB_DEBUG → normalize_verbose c = c) ∧
  (c < NC_VERB_ERROR → normalize_verbose c = NC_VERB_ERROR) ∧
  (NC_VERB_DEBUG < c → normalize_verbose c = NC_VERB_DEBUG) ∧
  (c ≤ c' → normalize_verbose c ≤ normalize_verbose c') ∧
  normalize_verbose (normalize_verbose c) = normalize_verbose c.
Proof.
  unfold normalize_verbose, NC_VERB_ERROR, NC_VERB_DEBUG.
  repeat match goal with
         | |- context [?a >? ?b] => destruct (Z.gtb_spec a b)
         end; lia.
Qed.

Lemma process_options_app (pre post : list getopt_result) (c : cmdline) :
  Forall (λ o, is_setting o = true) pre →
  ∃ c', process_options pre c = Settings c' ∧
    process_options (pre ++ post) c = process_options post c' ∧
    daemonize c' = (if bool_decide (Opt_d ∈ pre) then 0 else daemonize c) ∧
    np2_verbose_level c' = default (np2_verbose_level c) (last (levels pre)).
Proof.
  revert c. induction pre as [| o pre IH]; intros c Hall.
  - exists c. repeat split; reflexivity.
  - apply Forall_cons in Hall as [Ho Hall].
    destruct o; try discriminate; cbn -[levels].
    + destruct (IH (Cmdline 0 (np2_verbose_level c)) Hall) as (c' & H1 & H2 & H3 & H4).
      exists c'. split; [exact H1 |]. split; [exact H2 |]. split.
      * rewrite bool_decide_eq_true_2 by left. rewrite H3. case_bool_decide; reflexivity.
      * rewrite H4. reflexivity.
    + destruct (IH (Cmdline (daemonize c) (normalize_verbose arg)) Hall)
        as (c' & H1 & H2 & H3 & H4).
      exists c'. split; [exact H1 |]. split; [exact H2 |]. split.
      * rewrite H3. cbn.
        rewrite (bool_decide_ext (Opt_d ∈ Opt_v arg :: pre) (Opt_d ∈ pre)); [reflexivity |].
        rewrite elem_of_cons. intuition discriminate.
      * rewrite H4.
        change (levels (Opt_v arg :: pre)) with (normalize_verbose arg :: levels pre).
        cbn [np2_verbose_level].
        destruct (levels pre) as [| x l] eqn:Hl; [reflexivity |].
        rewrite last_cons_cons. destruct (last (x :: l)) eqn:Hx; [reflexivity |].
        apply last_None in Hx. discriminate.
Qed.

Lemma options_split (opts : list getopt_result) :
  Forall (λ o, is_setting o = true) opts ∨
  ∃ pre o post, opts = pre ++ o :: post ∧
    Forall (λ o, is_setting o = true) pre ∧ is_setting o = false.
Proof.
  induction opts as [| o opts IH]; [left; constructor |].
  destruct (is_setting o) eqn:Ho.
  - destruct IH as [IH | (pre & o' & post & -> & Hpre & Ho')].
    + left. constructor; assumption.
    + right. exists (o :: pre), o', post. repeat split; auto.
  - right. exists [], o, opts. repeat split; auto.
Qed.

(** X2: the option loop goes on to the rest of [main] exactly when every
    option is [-d] or [-v]; then [daemonize] is 0 if [-d] occurs and the
    level is that of the last [-v], normalised.  Otherwise the process ends
    at the first other option, with status 0 also for an option [getopt]
    rejects, and nothing after that option is looked at. *)
Theorem process_options_result (opts : list getopt_result) (c : cmdline) :
  (Forall (λ o, is_setting o = true) opts ∧
   ∃ c', process_options opts c = Settings c' ∧
     daemonize c' = (if bool_decide (Opt_d ∈ opts) then 0 else daemonize c) ∧
     np2_verbose_level c' = default (np2_verbose_level c) (last (levels opts)))
  ∨
  (∃ pre o post, opts = pre ++ o :: post ∧
     Forall (λ o, is_setting o = true) pre ∧ is_setting o = false ∧
     process_options opts c =
       Ends 0 (if bool_decide (o = Opt_V) then Version else Usage) ∧
     ∀ post', process_options (pre ++ o :: post') c = process_options opts c).
Proof.
  destruct (options_split opts) as [Hall | (pre & o & post & -> & Hpre & Ho)].
  - left. split; [exact Hall |].
    destruct (process_options_app opts [] c Hall) as (c' & H1 & _ & H3 & H4).
    exists c'. auto.
  - right. exists pre, o, post. split; [reflexivity |]. split; [exact Hpre |].
    split; [exact Ho |].
    assert (Hend : ∀ post', process_options (pre ++ o :: post') c =
                            Ends 0 (if bool_decide (o = Opt_V) then Version else Usage)).
    { intros post'. destruct (process_options_app pre (o :: post') c Hpre) as (c' & _ & -> & _).
      destruct o; try discriminate; reflexivity. }
    split; [apply Hend |]. intros post'. rewrite !Hend. reflexivity.
Qed.

End CommandLine.

(** The level for 7 is 3 and that for -2 is 0. *)
Lemma normalize_verbose_clamps_witness :
  normalize_verbose 7 = 3 ∧ normalize_verbose (-2) = 0 ∧ normalize_verbose 2 = 2.
Proof.
  destruct (normalize_verbose_clamps 7 7) as (_ & _ & _ & H7 & _).
  destruct (normalize_verbose_clamps (-2) 2) as (_ & H2 & Hm & _).
  split; [apply H7; reflexivity |]. split; [apply Hm; reflexivity |].
  destruct (normalize_verbose_clamps 2 2) as (_ & H & _). apply H.
  unfold NC_VERB_ERROR, NC_VERB_DEBUG. lia.
Defined.

(** [-v 7 -d -x -V]: the process ends at the rejected option with status 0
    and the usage text. *)
Lemma process_options_result_witness :
  process_options [Opt_v 7; Opt_d; Opt_error; Opt_V] (Cmdline 1 0) = Ends 0 Usage ∧
  ∃ c', process_options [Opt_v 7; Opt_d; Opt_v 1] (Cmdline 1 0) = Settings c' ∧
    daemonize c' = 0 ∧ np2_verbose_level c' = 1.
Proof.
  split.
  - destruct (process_options_result [Opt_v 7; Opt_d; Opt_error; Opt_V] (Cmdline 1 0))
      as [[Hall _] | (pre & o & post & Heq & Hpre & Ho & Hres & _)].
    + exfalso. apply Forall_cons in Hall as [_ Hall]. apply Forall_cons in Hall as [_ Hall].
      apply Forall_cons in Hall as [Hall _]. discriminate.
    + reflexivity.
  - destruct (process_options_result [Opt_v 7; Opt_d; Opt_v 1] (Cmdline 1 0))
      as [[_ (c' & H1 & H2 & H3)] | (pre & o & post & Heq & Hpre & Ho & Hres & _)].
    + exists c'. split; [exact H1 |]. split; [exact H2 | exact H3].
    + exfalso. vm_compute in Hres. discriminate.
Defined.

(** ** The PID file *)

Section PidFile.

Lemma digits_aux_ge (fuel : nat) :
  ∀ (n : Z) (acc : list Z), (length acc ≤ length (digits_aux fuel n acc))%nat.
Proof.
  induction fuel as [| fuel IH]; intros n acc; cbn; [lia |].
  destruct (n / 10 =? 0); [cbn; lia |].
  specialize (IH (n / 10) ((48 + n mod 10) :: acc)). cbn in IH. lia.
Qed.

Lemma pow10_succ (k : nat) : 10 ^ Z.of_nat (S k) = 10 * 10 ^ Z.of_nat k.
Proof. rewrite Nat2Z.inj_succ, Z.pow_succ_r by lia. reflexivity. Qed.

Lemma pow10_pos (k : nat) : 0 < 10 ^ Z.of_nat k.
Proof. apply Z.pow_pos_nonneg; lia. Qed.

(** A number below [10 ^ (k + 1)] has at most [k + 1] digits. *)
Lemma digits_aux_le (k : nat) :
  ∀ (fuel : nat) (n : Z) (acc : list Z),
    0 ≤ n < 10 ^ Z.of_nat (S k) →
    (length (digits_aux fuel n acc) ≤ length acc + S k)%nat.
Proof.
  induction k as [| k IH]; intros fuel n acc Hn; (destruct fuel as [| fuel]; cbn; [lia |]).
  - change (10 ^ Z.of_nat 1) with 10 in Hn.
    rewrite (Z.div_small n 10) by lia. cbn. lia.
  - destruct (n / 10 =? 0); [cbn; lia |].
    rewrite pow10_succ in Hn.
    assert (Hd : 0 ≤ n / 10 < 10 ^ Z.of_nat (S k)).
    { split; [apply Z.div_pos; lia | apply Z.div_lt_upper_bound; lia]. }
    specialize (IH fuel (n / 10) ((48 + n mod 10) :: acc) Hd). cbn in IH. lia.
Qed.

(** A number from [10 ^ k] on has at least [k + 1] digits. *)
Lemma digits_aux_lower (k : nat) :
  ∀ (fuel : nat) (n : Z) (acc : list Z),
    (S k ≤ fuel)%nat → 10 ^ Z.of_nat k ≤ n →
    (length acc + S k ≤ length (digits_aux fuel n acc))%nat.
Proof.
  induction k as [| k IH]; intros fuel n acc Hf Hn;
    (destruct fuel as [| fuel]; [lia |]); cbn.
  - destruct (n / 10 =? 0); [cbn; lia |].
    pose proof (digits_aux_ge fuel (n / 10) ((48 + n mod 10) :: acc)) as H. cbn in H. lia.
  - rewrite pow10_succ in Hn. pose proof (pow10_pos k) as Hp.
    assert (Hd : 10 ^ Z.of_nat k ≤ n / 10) by (apply Z.div_le_lower_bound; lia).
    destruct (Z.eqb_spec (n / 10) 0) as [H0 | _]; [lia |].
    assert (Hf' : (S k ≤ fuel)%nat) by lia.
    specialize (IH fuel (n / 10) ((48 + n mod 10) :: acc) Hf' Hd). cbn in IH. lia.
Qed.

(** X3: what ends up in the PID file.  For a process id below 1000000 it is
    the decimal digits and a newline.  A process id of seven digits does not
    fit into [char pid[8]] with its newline: [snprintf] cuts the text and
    [write] puts the seven digits followed by a null character, without
    newline.  From eight digits on [write] is asked for more characters than
    the array holds. *)
Theorem pid_file_content_cases (pid : Z) :
  (0 ≤ pid < 1000000 → pid_file_content pid = Some (digits pid ++ [10])) ∧
  (1000000 ≤ pid < 10000000 → pid_file_content pid = Some (digits pid ++ [0])) ∧
  (10000000 ≤ pid → pid_file_content pid = None).
Proof.
  unfold pid_file_content, snprintf, write_from, format_pid.
  rewrite length_app. cbn [length].
  split; [| split]; intros Hp.
  - pose proof (digits_aux_le 5 10 pid [] ltac:(change (10 ^ Z.of_nat 6) with 1000000; lia))
      as Hle.
    cbn [length] in Hle. fold (digits pid) in Hle.
    rewrite (take_ge (digits pid ++ [10])) by (rewrite length_app; cbn [length]; lia).
    rewrite bool_decide_eq_true_2 by (rewrite !length_app; cbn [length]; lia).
    f_equal. rewrite Nat2Z.id. apply take_app_length'. rewrite length_app. reflexivity.
  - pose proof (digits_aux_le 6 10 pid [] ltac:(change (10 ^ Z.of_nat 7) with 10000000; lia))
      as Hle.
    pose proof (digits_aux_lower 6 10 pid [] ltac:(lia)
                  ltac:(change (10 ^ Z.of_nat 6) with 1000000; lia)) as Hge.
    cbn [length] in Hle, Hge. fold (digits pid) in Hle, Hge.
    assert (Hlen : length (digits pid) = 7%nat) by lia.
    change (8 - 1)%nat with 7%nat.
    rewrite (take_app_length' (digits pid) [10] 7) by (symmetry; exact Hlen).
    rewrite bool_decide_eq_true_2 by (rewrite !length_app; cbn [length]; lia).
    f_equal. apply take_ge. rewrite length_app. cbn [length]. lia.
  - pose proof (digits_aux_lower 7 10 pid [] ltac:(lia)
                  ltac:(change (10 ^ Z.of_nat 7) with 10000000; lia)) as Hge.
    cbn [length] in Hge. fold (digits pid) in Hge.
    rewrite bool_decide_eq_false_2; [reflexivity |]. lia.
Qed.

End PidFile.

(** The process ids 4711 and 4194304 (the largest Linux gives out). *)
Lemma pid_file_content_cases_witness :
  pid_file_content 4711 = Some [52; 55; 49; 49; 10] ∧
  pid_file_content 4194304 = Some [52; 49; 57; 52; 51; 48; 52; 0].
Proof.
  destruct (pid_file_content_cases 4711) as (H1 & _ & _).
  destruct (pid_file_content_cases 4194304) as (_ & H2 & _).
  split; [rewrite H1 by lia | rewrite H2 by lia]; reflexivity.
Defined.

(** ** More on the signal handler *)

Section MoreSignals.

Implicit Types (w : world).

Lemma is_termination_class (sig : Z) :
  is_termination sig = true ↔ sig ∈ termination_class.
Proof.
  split; [| apply termination_class_inv].
  unfold is_termination, termination_class. rewrite !elem_of_cons, elem_of_nil.
  repeat case_bool_decide; cbn; intros; auto 10; discriminate.
Qed.

Lemma is_restart_class (sig : Z) : is_restart sig = true ↔ sig ∈ restart_class.
Proof.
  split; [| apply restart_class_inv].
  unfold is_restart, restart_class. rewrite !elem_of_cons, elem_of_nil.
  repeat case_bool_decide; cbn; intros; auto 10; discriminate.
Qed.

(** X4: the handler never sets the flag to LOOP_CONTINUE, never clears
    [quit] once it is set, and touches nothing but the flag and [quit]; when
    it exits, the status is EXIT_FAILURE; and for a signal outside the two
    classes it always exits. *)
Theorem signal_handler_frame (sig : Z) (w : world) :
  match signal_handler sig w with
  | Returns w' =>
      control w' ≠ LOOP_CONTINUE ∧
      (quit w' = quit w ∨ (quit w = 0 ∧ quit w' = 1)) ∧
      dslock w' = dslock w ∧ nc_ps w' = nc_ps w ∧ heap w' = heap w ∧
      sr_open w' = sr_open w ∧ nc_live w' = nc_live w ∧ trace w' = trace w
  | Exits st => st = EXIT_FAILURE
  end ∧
  (sig ∉ termination_class → sig ∉ restart_class →
   signal_handler sig w = Exits EXIT_FAILURE).
Proof.
  split.
  - unfold signal_handler.
    destruct (is_termination sig); [case_bool_decide as Hq | destruct (is_restart sig)];
      cbn; auto 10.
  - intros Ht Hr. unfold signal_handler.
    destruct (is_termination sig) eqn:Et; [apply is_termination_class in Et; contradiction |].
    destruct (is_restart sig) eqn:Er; [apply is_restart_class in Er; contradiction |].
    reflexivity.
Qed.

Lemma handle_signals_app (pre post : list Z) w :
  handle_signals (pre ++ post) w =
  match handle_signals pre w with
  | Returns w' => handle_signals post w'
  | Exits st => Exits st
  end.
Proof.
  revert w. induction pre as [| sig pre IH]; intros w; cbn; [reflexivity |].
  destruct (signal_handler sig w); [apply IH | reflexivity].
Qed.

Lemma signal_handler_exit_status (sig : Z) w (st : Z) :
  signal_handler sig w = Exits st → st = EXIT_FAILURE.
Proof.
  unfold signal_handler.
  destruct (is_termination sig); [case_bool_decide |]; try discriminate.
  - intros [= <-]. reflexivity.
  - destruct (is_restart sig); [discriminate |]. intros [= <-]. reflexivity.
Qed.

Lemma handle_signals_exit_status (sigs : list Z) :
  ∀ w st, handle_signals sigs w = Exits st → st = EXIT_FAILURE.
Proof.
  induction sigs as [| sig sigs IH]; intros w st; cbn; [discriminate |].
  destruct (signal_handler sig w) eqn:Hs; [apply IH |].
  intros [= <-]. exact (signal_handler_exit_status sig w _ Hs).
Qed.

Lemma signal_handler_quit (sig : Z) w w' :
  quit w ≠ 0 → signal_handler sig w = Returns w' →
  quit w' ≠ 0 ∧ sig ∉ termination_class.
Proof.
  intros Hq. unfold signal_handler.
  destruct (is_termination sig) eqn:Et.
  - rewrite bool_decide_eq_false_2 by exact Hq. discriminate.
  - destruct (is_restart sig); [| discriminate]. intros [= <-]. split; [exact Hq |].
    intros Hin. apply is_termination_class in Hin. congruence.
Qed.

(** Once [quit] is set, a sequence with a termination signal in it ends in
    the exit of the process. *)
Lemma handle_signals_quit (sigs : list Z) :
  ∀ w (t : Z), quit w ≠ 0 → t ∈ termination_class → t ∈ sigs →
  handle_signals sigs w = Exits EXIT_FAILURE.
Proof.
  induction sigs as [| sig sigs IH]; intros w t Hq Ht Hin; [inversion Hin |].
  cbn. destruct (signal_handler sig w) as [w' | st] eqn:Hs.
  - destruct (signal_handler_quit sig w w' Hq Hs) as [Hq' Hnt].
    apply elem_of_cons in Hin as [-> | Hin]; [contradiction |].
    exact (IH w' t Hq' Ht Hin).
  - f_equal. exact (signal_handler_exit_status sig w st Hs).
Qed.

(** X5: how signals add up.  Two termination signals in a sequence end the
    process with EXIT_FAILURE, whatever comes before, between and after them:
    a restart signal in between does not take the pending stop back.  And in
    a sequence the handler returns from every time, the last signal decides
    the flag: a restart signal after a termination signal turns the stop into
    a restart. *)
Theorem signals_add_up (pre mid post : list Z) (t1 t2 last : Z) (w : world) :
  (t1 ∈ termination_class → t2 ∈ termination_class →
   handle_signals (pre ++ t1 :: mid ++ t2 :: post) w = Exits EXIT_FAILURE) ∧
  (∀ w', handle_signals (pre ++ [last]) w = Returns w' →
     (last ∈ termination_class → control w' = LOOP_STOP ∧ quit w' = 1) ∧
     (last ∈ restart_class → control w' = LOOP_RESTART)).
Proof.
  split.
  - intros Ht1 Ht2. rewrite handle_signals_app.
    destruct (handle_signals pre w) as [w1 | st] eqn:Hpre.
    2:{ f_equal. exact (handle_signals_exit_status pre w st Hpre). }
    cbn. destruct (signal_handler t1 w1) as [w2 | st] eqn:Hs.
    2:{ f_equal. exact (signal_handler_exit_status t1 w1 st Hs). }
    assert (Hq : quit w2 ≠ 0).
    { unfold signal_handler in Hs. rewrite (termination_class_inv _ Ht1) in Hs.
      case_bool_decide; [| discriminate]. injection Hs as <-. cbn. discriminate. }
    apply (handle_signals_quit _ w2 t2 Hq Ht2).
    apply elem_of_app. right. left.
  - intros w'. rewrite handle_signals_app.
    destruct (handle_signals pre w) as [w1 | st]; [| discriminate].
    cbn. destruct (signal_handler last w1) as [w2 | st] eqn:Hs; [| discriminate].
    intros [= <-]. unfold signal_handler in Hs. split.
    + intros Ht. rewrite (termination_class_inv _ Ht) in Hs.
      case_bool_decide; [| discriminate]. injection Hs as <-. split; reflexivity.
    + intros Hr. destruct (restart_class_inv _ Hr) as [Et Er]. rewrite Et, Er in Hs.
      injection Hs as <-. reflexivity.
Qed.

End MoreSignals.

(** SIGUSR2 is not handled: the process exits. *)
Lemma signal_handler_frame_witness :
  signal_handler SIGUSR2 (wld boot) = Exits EXIT_FAILURE.
Proof.
  destruct (signal_handler_frame SIGUSR2 (wld boot)) as [_ H]. apply H.
  - unfold termination_class. rewrite !elem_of_cons, elem_of_nil.
    intros [H1 | [H1 | [H1 | [H1 | []]]]]; discriminate.
  - unfold restart_class. rewrite !elem_of_cons, elem_of_nil.
    intros [H1 | [H1 | []]]; discriminate.
Defined.

(** SIGTERM, SIGHUP, SIGINT: the process exits although a restart was asked
    for in between; SIGTERM then SIGHUP: the flag is LOOP_RESTART. *)
Lemma signals_add_up_witness :
  handle_signals [SIGTERM; SIGHUP; SIGINT] (wld boot) = Exits EXIT_FAILURE ∧
  ∃ w', handle_signals [SIGTERM; SIGHUP] (wld boot) = Returns w' ∧
    control w' = LOOP_RESTART.
Proof.
  assert (Hterm : SIGTERM ∈ termination_class)
    by (unfold termination_class; rewrite !elem_of_cons; right; left; reflexivity).
  assert (Hint : SIGINT ∈ termination_class)
    by (unfold termination_class; rewrite !elem_of_cons; left; reflexivity).
  assert (Hhup : SIGHUP ∈ restart_class)
    by (unfold restart_class; rewrite !elem_of_cons; left; reflexivity).
  split.
  - exact (proj1 (signals_add_up [] [SIGHUP] [] SIGTERM SIGINT SIGINT (wld boot)) Hterm Hint).
  - eexists. split; [reflexivity |].
    exact (proj2 (proj2 (signals_add_up [SIGTERM] [] [] SIGTERM SIGINT SIGHUP (wld boot)) _
                   eq_refl) Hhup).
Defined.

(** ** More on binding and teardown *)

Section MoreBinding.

Implicit Types (w : world) (e : bind_env).

(** X6: [connect_ds] for a live session returns EXIT_SUCCESS exactly when
    [calloc] and [sr_session_start_user] both succeed, and EXIT_FAILURE
    otherwise; it never touches the flag, the lock registry or the poll
    structure.  On success the session has one new binding attached, at an
    address that was free, for the datastore running with the default
    options, referring back to the session and holding a sysrepo session that
    was not open before; nothing else in the heap or among the sessions
    changes.  For a null session it fails and does nothing. *)
Theorem connect_ds_outcome e (n : nat) w (sess : nc_session) :
  nc_live w !! n = Some sess →
  connect_ds e NULL w = Some (EXIT_FAILURE, w) ∧
  ∃ (r : Z) (w2 : world),
    connect_ds e (Some n) w = Some (r, w2) ∧
    (r = EXIT_SUCCESS ∨ r = EXIT_FAILURE) ∧
    (r = EXIT_SUCCESS ↔ calloc_ok e = true ∧ sr_rc e = SR_ERR_OK) ∧
    control w2 = control w ∧ quit w2 = quit w ∧
    dslock w2 = dslock w ∧ nc_ps w2 = nc_ps w ∧
    (r = EXIT_SUCCESS →
     ∃ (a h : nat),
       heap w !! a = None ∧ (h ∉ sr_open w) ∧
       binding_of n w2 =
         Some (a, Np2Sessions (Some n) (Some h) SR_DS_RUNNING SR_SESS_DEFAULT) ∧
       bound n w2 ∧
       sr_open w2 = {[h]} ∪ sr_open w ∧
       (∀ a' : nat, a' ≠ a → heap w2 !! a' = heap w !! a') ∧
       nc_live w2 !! n = Some (NcSession (Some a) (status sess)) ∧
       (∀ m : nat, m ≠ n → nc_live w2 !! m = nc_live w !! m)).
Proof.
  intros Hn. split; [reflexivity |].
  destruct (connect_ds_cases e n w sess Hn)
    as (r & w2 & Hcon & Hc & Hq & Hd & Hps & Hcase).
  exists r, w2. split; [exact Hcon |].
  destruct Hcase as [(-> & Hfail & _) | (-> & Hcal & Hrc & Hh & Hso & Hnl & _)].
  - split; [right; reflexivity |]. split.
    + split; [discriminate |]. intros [H1 H2]. destruct Hfail; congruence.
    + repeat split; try assumption. discriminate.
  - split; [left; reflexivity |]. split; [tauto |].
    repeat split; try assumption. intros _.
    exists (fresh (dom (heap w))), (fresh (sr_open w)).
    assert (Hb : binding_of n w2 =
                 Some (fresh (dom (heap w)),
                       Np2Sessions (Some n) (Some (fresh (sr_open w))) SR_DS_RUNNING
                                   SR_SESS_DEFAULT)).
    { unfold binding_of. rewrite Hnl, lookup_insert_eq. cbn.
      rewrite Hh, lookup_insert_eq. reflexivity. }
    split; [apply fresh_heap_None |]. split; [apply is_fresh |].
    split; [exact Hb |]. split; [| split; [exact Hso | split; [| split]]].
    + eexists _, _, _, _. rewrite Hnl, Hh, Hso, !lookup_insert_eq.
      repeat split; try reflexivity. apply elem_of_union_l, elem_of_singleton. reflexivity.
    + intros a' Ha. rewrite Hh. apply lookup_insert_ne. congruence.
    + rewrite Hnl. apply lookup_insert_eq.
    + intros m Hm. rewrite Hnl. apply lookup_insert_ne. congruence.
Qed.

(** X7: the teardown of a binding releases every lock its session holds and
    no other: a slot held by the bound session is unlocked afterwards, a slot
    held by anybody else keeps its holder; the binding is gone from the heap,
    its sysrepo session is closed, and no other binding, sysrepo session or
    NETCONF session is touched. *)
Theorem free_ds_releases_locks (a n : nat) (b : np2_sessions) w :
  heap w !! a = Some b → ncs b = Some n →
  ∃ w', free_ds (Some a) w = Some w' ∧
    (∀ k, lock_of k (dslock w') ≠ Some n) ∧
    (∀ k, lock_of k (dslock w) ≠ Some n → lock_of k (dslock w') = lock_of k (dslock w)) ∧
    heap w' !! a = None ∧
    (∀ a' : nat, a' ≠ a → heap w' !! a' = heap w !! a') ∧
    (∀ h : nat, srs b = Some h → h ∉ sr_open w') ∧
    (∀ h : nat, srs b ≠ Some h → (h ∈ sr_open w' ↔ h ∈ sr_open w)) ∧
    nc_live w' = nc_live w ∧ nc_ps w' = nc_ps w.
Proof.
  intros Hb Hn.
  destruct (free_ds_spec a b w Hb) as (w' & Hf & _ & Hso & Hd & Hh & Hnl & Hps & _).
  exists w'. split; [exact Hf |].
  rewrite Hd, clean_dslock_slots, Hn, Hh, Hso.
  repeat split; try assumption.
  - intros k. destruct k; cbn; apply cleaned_not; discriminate.
  - intros k. destruct k; cbn; apply cleaned_other.
  - apply lookup_delete_eq.
  - intros a' Ha. apply lookup_delete_ne. congruence.
  - intros h Hs. rewrite Hs. rewrite elem_of_difference, elem_of_singleton. tauto.
  - destruct (srs b) as [h' |]; [| tauto].
    rewrite elem_of_difference, elem_of_singleton. tauto.
  - destruct (srs b) as [h' |]; [| tauto].
    rewrite elem_of_difference, elem_of_singleton. intros Hin. split; [exact Hin |].
    intros ->. apply H. reflexivity.
Qed.

End MoreBinding.

(** A session accepted next to session 7 and bound; the binding of session 7
    torn down. *)
Lemma connect_ds_outcome_witness :
  ∃ w2, connect_ds bind_ok (nc_accept 1 w_bound).1.2 (nc_accept 1 w_bound).2
          = Some (EXIT_SUCCESS, w2) ∧
    bound (fresh (dom (nc_live w_bound))) w2.
Proof.
  destruct (connect_ds_outcome bind_ok (fresh (dom (nc_live w_bound))) (nc_accept 1 w_bound).2
              (NcSession NULL NC_STATUS_RUNNING))
    as (_ & r & w2 & Hcon & _ & Hiff & _ & _ & _ & _ & Hok).
  - vm_compute. reflexivity.
  - assert (Hr : r = EXIT_SUCCESS) by (apply Hiff; split; reflexivity).
    subst r. exists w2. split; [exact Hcon |].
    destruct (Hok eq_refl) as (a & h & _ & _ & _ & Hb & _). exact Hb.
Defined.

Lemma free_ds_releases_locks_witness :
  ∃ w', free_ds (Some 3%nat) w_bound = Some w' ∧
    running (dslock w') ≠ Some 7%nat ∧ heap w' !! 3%nat = None.
Proof.
  destruct (free_ds_releases_locks 3 7
              (Np2Sessions (Some 7%nat) (Some 5%nat) SR_DS_RUNNING SR_SESS_DEFAULT) w_bound
              eq_refl eq_refl) as (w' & Hf & Hrel & _ & Hgone & _).
  exists w'. split; [exact Hf |]. split; [exact (Hrel SR_DS_RUNNING) | exact Hgone].
Defined.

(** ** Locks and sessions when sessions are freed *)

Section MoreDrain.

Implicit Types (w : world) (l : list nat).

(** What freeing one session does to the lock registry and to the sysrepo
    sessions. *)
Lemma nc_session_free_effects (n : nat) w w1 :
  session_ok n w → nc_session_free (Some n) free_ds w = Some w1 →
  (∀ k, lock_of k (dslock w1) =
        match binding_of n w with
        | Some _ => cleaned (Some n) (lock_of k (dslock w))
        | None => lock_of k (dslock w)
        end) ∧
  sr_open w1 = match binding_of n w with
               | Some (_, b) => match srs b with
                                | Some h => sr_open w ∖ {[h]}
                                | None => sr_open w
                                end
               | None => sr_open w
               end.
Proof.
  intros (sess & Hl & Hd). unfold nc_session_free, binding_of.
  rewrite Hl. cbn -[free_ds]. destruct (data sess) as [a |]; cbn -[free_ds].
  - destruct Hd as (b & Hb & Hn).
    destruct (free_ds_spec a b w Hb) as (w0 & Hf & _ & Hso & Hdl & _).
    rewrite Hf, Hb. cbn. intros [= <-]. cbn. rewrite Hso, Hdl, clean_dslock_slots, Hn.
    split; [intros k; destruct k; reflexivity | reflexivity].
  - intros [= <-]. cbn. split; [intros k; reflexivity | reflexivity].
Qed.

Lemma cleaned_cases (s slot : ptr) : cleaned s slot = slot ∨ cleaned s slot = NULL.
Proof. unfold cleaned. destruct (ptr_eqb slot s); auto. Qed.

(** Freeing the sessions of a list: the locks of those that have a binding
    are released, no other slot changes, and their sysrepo sessions are
    closed. *)
Lemma free_sessions_locks l :
  ∀ w w', NoDup l → (∀ n, n ∈ l → session_ok n w) →
  free_sessions l free_ds w = Some w' →
  (∀ k, lock_of k (dslock w') = lock_of k (dslock w) ∨ lock_of k (dslock w') = NULL) ∧
  (∀ n, n ∈ l → is_Some (binding_of n w) → ∀ k, lock_of k (dslock w') ≠ Some n) ∧
  (∀ k, (∀ n, n ∈ l → is_Some (binding_of n w) → lock_of k (dslock w) ≠ Some n) →
        lock_of k (dslock w') = lock_of k (dslock w)) ∧
  sr_open w' ⊆ sr_open w ∧
  (∀ n a b h, n ∈ l → binding_of n w = Some (a, b) → srs b = Some h → h ∉ sr_open w').
Proof.
  induction l as [| n l IH]; intros w w' Hnd Hok.
  - cbn. intros [= <-]. repeat split; auto.
    + intros n Hn. inversion Hn.
    + intros n a b h Hn. inversion Hn.
  - apply NoDup_cons in Hnd as [Hnl Hnd].
    assert (Hn : session_ok n w) by (apply Hok; left).
    destruct (nc_session_free_spec n w Hn) as (w1 & Hf & _ & Hlive & Hheap & _).
    destruct (nc_session_free_effects n w w1 Hn Hf) as [Hlk Hso].
    assert (Hrest : ∀ m, m ∈ l →
              session_ok m w1 ∧ binding_of m w1 = binding_of m w ∧
              nc_live w1 !! m = nc_live w !! m).
    { intros m Hm. apply (nc_session_free_other n m w w1); auto.
      - apply Hok. right. exact Hm.
      - intros ->. contradiction. }
    cbn -[nc_session_free]. rewrite Hf. cbn -[nc_session_free]. intros Hfs.
    destruct (IH w1 w' Hnd (λ m Hm, proj1 (Hrest m Hm)) Hfs)
      as (Hclr & Hrel & Hkeep & Hsub & Hclosed).
    assert (Hso1 : sr_open w1 ⊆ sr_open w).
    { rewrite Hso. destruct (binding_of n w) as [[a b] |]; [| reflexivity].
      destruct (srs b); [| reflexivity]. intros x. rewrite elem_of_difference. tauto. }
    split; [| split; [| split; [| split]]].
    + intros k. destruct (Hclr k) as [-> | ->]; [| right; reflexivity].
      rewrite Hlk. destruct (binding_of n w); [apply cleaned_cases | left; reflexivity].
    + intros m Hm Hb k. apply elem_of_cons in Hm as [-> | Hm].
      * destruct (Hclr k) as [-> | ->]; [| discriminate].
        rewrite Hlk. destruct Hb as [x ->]. apply cleaned_not. discriminate.
      * apply (Hrel m Hm). rewrite (proj1 (proj2 (Hrest m Hm))). exact Hb.
    + intros k Hk. rewrite Hkeep.
      * rewrite Hlk. destruct (binding_of n w) eqn:Hb; [| reflexivity].
        apply cleaned_other. apply (Hk n); [left | eauto].
      * intros m Hm Hb. rewrite Hlk.
        assert (Hkm : lock_of k (dslock w) ≠ Some m).
        { apply Hk; [right; exact Hm |]. rewrite <- (proj1 (proj2 (Hrest m Hm))). exact Hb. }
        destruct (binding_of n w); [| exact Hkm].
        destruct (cleaned_cases (Some n) (lock_of k (dslock w))) as [-> | ->];
          [exact Hkm | discriminate].
    + intros x Hx. apply Hso1, Hsub, Hx.
    + intros m a b h Hm Hb Hs. apply elem_of_cons in Hm as [-> | Hm].
      * intros Hin. apply Hsub in Hin. rewrite Hso, Hb, Hs in Hin.
        apply elem_of_difference in Hin as [_ Hin]. apply Hin, elem_of_singleton. reflexivity.
      * apply (Hclosed m a b h Hm); [| exact Hs].
        rewrite (proj1 (proj2 (Hrest m Hm))). exact Hb.
Qed.

(** [nc_ps_clear] without [all] frees the sessions that are not running, as
    [nc_ps_clear] with [all] would free a poll structure of just those. *)
Lemma clear_invalid_free_sessions l :
  ∀ w, NoDup l → (∀ n, n ∈ l → session_ok n w) →
  clear_invalid l free_ds w =
  (λ w', (List.filter (is_running w) l, w')) <$>
    free_sessions (List.filter (λ n, negb (is_running w n)) l) free_ds w.
Proof.
  induction l as [| n l IH]; intros w Hnd Hok; [reflexivity |].
  apply NoDup_cons in Hnd as [Hnl Hnd].
  assert (Hn : session_ok n w) by (apply Hok; left).
  destruct Hn as (sess & Hl & Hd).
  assert (Hn : session_ok n w) by (exists sess; auto).
  assert (Hrun : is_running w n = bool_decide (status sess = NC_STATUS_RUNNING))
    by (unfold is_running; rewrite Hl; reflexivity).
  cbn -[nc_session_free]. rewrite Hl. cbn -[nc_session_free]. rewrite !Hrun.
  destruct (decide (status sess = NC_STATUS_RUNNING)) as [Hst | Hst].
  - rewrite (bool_decide_eq_false_2 (status sess ≠ NC_STATUS_RUNNING)) by auto.
    rewrite !(bool_decide_eq_true_2 _ Hst). cbn -[nc_session_free].
    rewrite (IH w Hnd (λ m Hm, Hok m (list_elem_of_further _ _ _ Hm))).
    destruct (free_sessions _ free_ds w); reflexivity.
  - rewrite (bool_decide_eq_true_2 (status sess ≠ NC_STATUS_RUNNING)) by auto.
    rewrite !(bool_decide_eq_false_2 _ Hst). cbn -[nc_session_free].
    destruct (nc_session_free_spec n w Hn) as (w1 & Hf & _ & Hlive & Hheap & _).
    assert (Hrest : ∀ m, m ∈ l →
              session_ok m w1 ∧ binding_of m w1 = binding_of m w ∧
              nc_live w1 !! m = nc_live w !! m).
    { intros m Hm. apply (nc_session_free_other n m w w1); auto.
      - apply Hok. right. exact Hm.
      - intros ->. contradiction. }
    rewrite Hf. cbn -[nc_session_free].
    rewrite (IH w1 Hnd (λ m Hm, proj1 (Hrest m Hm))).
    rewrite (List.filter_ext_in (is_running w1) (is_running w)).
    2:{ intros m Hm. apply is_running_ext, Hrest, list_elem_of_In, Hm. }
    rewrite (List.filter_ext_in (λ m, negb (is_running w1 m)) (λ m, negb (is_running w m))).
    2:{ intros m Hm. f_equal. apply is_running_ext, Hrest, list_elem_of_In, Hm. }
    reflexivity.
Qed.

Lemma filter_elem (f : nat → bool) l (m : nat) :
  m ∈ List.filter f l ↔ m ∈ l ∧ f m = true.
Proof. rewrite !list_elem_of_In. apply List.filter_In. Qed.

Lemma binding_of_mark_invalid (k : list nat) w (m : nat) :
  binding_of m (mark_invalid k w) = binding_of m w.
Proof.
  unfold binding_of. rewrite mark_invalid_lookup.
  destruct (nc_live w !! m) as [[d st] |]; reflexivity.
Qed.

(** X8: when the processing thread leaves its loop, every lock held by a
    session of the poll structure that has a binding is released and its
    sysrepo session is closed; a slot with any other holder is left as it is,
    and no slot gets a holder.  A slot held by a session of the structure
    without binding (one registered for an SSH channel) keeps that session as
    holder although the session is freed. *)
Theorem drain_releases_locks w :
  NoDup (nc_ps w) → (∀ n : nat, n ∈ nc_ps w → session_ok n w) →
  ∃ w', process_cleanup w = Some w' ∧
    (∀ n : nat, n ∈ nc_ps w → is_Some (binding_of n w) →
       ∀ k, lock_of k (dslock w') ≠ Some n) ∧
    (∀ k (h : nat), lock_of k (dslock w') = Some h → lock_of k (dslock w) = Some h) ∧
    (∀ k, (∀ n : nat, n ∈ nc_ps w → is_Some (binding_of n w) →
                      lock_of k (dslock w) ≠ Some n) →
          lock_of k (dslock w') = lock_of k (dslock w)) ∧
    (∀ k (m : nat), m ∈ nc_ps w → binding_of m w = None →
       lock_of k (dslock w) = Some m →
       lock_of k (dslock w') = Some m ∧ nc_live w' !! m = None) ∧
    (∀ (n a : nat) (b : np2_sessions) (h : nat),
       n ∈ nc_ps w → binding_of n w = Some (a, b) → srs b = Some h → h ∉ sr_open w') ∧
    sr_open w' ⊆ sr_open w.
Proof.
  intros Hnd Hok.
  destruct (process_cleanup_spec w Hnd Hok) as (w' & Hpc & _ & _ & Hgone & _).
  exists w'. split; [exact Hpc |].
  unfold process_cleanup, nc_ps_clear in Hpc.
  rewrite bool_decide_eq_true_2 in Hpc by discriminate.
  change (nc_ps (emit (E_nc_ps_clear 1) w)) with (nc_ps w) in Hpc.
  destruct (free_sessions (nc_ps w) free_ds (emit (E_nc_ps_clear 1) w)) as [w1 |] eqn:Hfs;
    [| discriminate].
  cbn in Hpc. injection Hpc as <-. cbn.
  destruct (free_sessions_locks (nc_ps w) (emit (E_nc_ps_clear 1) w) w1 Hnd Hok Hfs)
    as (Hclr & Hrel & Hkeep & Hsub & Hclosed).
  cbn in Hclr, Hkeep. cbn in Hgone.
  split; [exact Hrel |]. split; [| split; [exact Hkeep | split; [| split]]].
  - intros k h Hh. destruct (Hclr k) as [Heq | Heq]; rewrite Heq in Hh;
      [exact Hh | discriminate].
  - intros k m Hm Hb Hk. split; [| apply Hgone, Hm].
    rewrite Hkeep; [exact Hk |]. intros n Hn [x Hx] Heq.
    rewrite Hk in Heq. injection Heq as ->.
    change (binding_of n (emit (E_nc_ps_clear 1) w)) with (binding_of n w) in Hx. congruence.
  - exact Hclosed.
  - exact Hsub.
Qed.

(** X9: a status change is kept to the sessions it concerns.  When
    [nc_ps_poll] returns 3 (or -1), every session of the poll structure that
    is still running stays registered, alive, with its binding and with the
    locks it holds; every session that is not running is taken out, freed,
    and the locks of its binding are released; no session is added. *)
Theorem status_change_isolated (e : worker_env) (p : ptr) w :
  nc_ps w ≠ [] → poll_rc e = -1 ∨ poll_rc e = 3 →
  NoDup (nc_ps w) → (∀ n : nat, n ∈ nc_ps w → session_ok n w) →
  let wp := (nc_ps_poll e w).2 in
  ∃ w', process_body e p w = Some (p, w') ∧
    (∀ m : nat, m ∈ nc_ps w → is_running wp m = true →
       m ∈ nc_ps w' ∧ nc_live w' !! m = nc_live wp !! m ∧
       binding_of m w' = binding_of m w ∧
       ∀ k, lock_of k (dslock w) = Some m → lock_of k (dslock w') = Some m) ∧
    (∀ m : nat, m ∈ nc_ps w → is_running wp m = false →
       (m ∉ nc_ps w') ∧ nc_live w' !! m = None ∧
       (is_Some (binding_of m w) → ∀ k, lock_of k (dslock w') ≠ Some m)) ∧
    (∀ m : nat, m ∈ nc_ps w' → m ∈ nc_ps w).
Proof.
  intros Hne Hrc Hnd Hok wp.
  rewrite (process_body_clear e p w Hne Hrc). fold wp.
  unfold nc_ps_clear. rewrite bool_decide_eq_false_2 by (intros H; apply H; reflexivity).
  set (w0 := emit (E_nc_ps_clear 0) wp).
  assert (Hok0 : ∀ n, n ∈ nc_ps w → session_ok n w0)
    by (intros n Hn; exact (mark_invalid_ok (poll_invalid e) w n (Hok n Hn))).
  assert (Hbind : ∀ m, binding_of m w0 = binding_of m w)
    by (intros m; exact (binding_of_mark_invalid (poll_invalid e) w m)).
  change (nc_ps w0) with (nc_ps w).
  destruct (clear_invalid_spec (nc_ps w) w0 Hnd Hok0) as (w1 & Hci & _ & _ & _ & _ & Hkeep).
  pose proof (clear_invalid_free_sessions (nc_ps w) w0 Hnd Hok0) as Hbr.
  rewrite Hci in Hbr.
  set (dead := List.filter (λ n, negb (is_running w0 n)) (nc_ps w)) in *.
  destruct (free_sessions dead free_ds w0) as [w1' |] eqn:Hfs; [| discriminate].
  cbn in Hbr. injection Hbr as <-.
  assert (Hndd : NoDup dead)
    by (apply NoDup_ListNoDup, List.NoDup_filter, NoDup_ListNoDup, Hnd).
  assert (Hokd : ∀ n, n ∈ dead → session_ok n w0)
    by (intros n Hn; apply filter_elem in Hn as [Hn _]; exact (Hok0 n Hn)).
  destruct (free_sessions_spec dead w0 Hndd Hokd) as (w1' & Hfs' & _ & Hgone & _).
  rewrite Hfs in Hfs'. injection Hfs' as <-.
  destruct (free_sessions_locks dead w0 w1 Hndd Hokd Hfs) as (_ & Hrel & Hlk & _).
  rewrite Hci. cbn. eexists. split; [reflexivity |]. cbn.
  split; [| split].
  - intros m Hm Hr.
    assert (Hr0 : is_running w0 m = true) by exact Hr.
    assert (Hnd' : m ∉ dead).
    { intros Hin. apply filter_elem in Hin as [_ Hin]. cbn beta in Hin.
      rewrite Hr0 in Hin. discriminate. }
    destruct (Hkeep m (Hok0 m Hm) Hnd') as (_ & Hb & Hl).
    split; [apply filter_elem; split; [exact Hm | exact Hr0] |].
    split; [exact Hl |].
    split; [transitivity (binding_of m w1); [reflexivity | rewrite Hb; apply Hbind] |].
    intros k Hk. change (lock_of k (dslock w1) = Some m). rewrite Hlk; [exact Hk |].
    intros n Hn _ Heq. change (dslock w0) with (dslock w) in Heq.
    rewrite Hk in Heq. injection Heq as ->. contradiction.
  - intros m Hm Hr.
    assert (Hr0 : is_running w0 m = false) by exact Hr.
    assert (Hd : m ∈ dead).
    { apply filter_elem. split; [exact Hm |]. cbn beta. rewrite Hr0. reflexivity. }
    split; [| split].
    + intros Hin. apply filter_elem in Hin as [_ Hin]. congruence.
    + apply Hgone, Hd.
    + intros Hb. apply (Hrel m Hd). rewrite Hbind. exact Hb.
  - intros m Hin. apply filter_elem in Hin as [Hin _]. exact Hin.
Qed.

(** X10: the session of a new SSH channel is registered without a binding.
    When [nc_ps_poll] returns 5 and the channel is accepted, the new session
    is appended to the poll structure with a null data pointer: [connect_ds]
    is not called, no binding and no sysrepo session is created, and the
    later teardown of that session consists of [nc_session_free] alone, which
    releases no lock. *)
Theorem ssh_channel_session_unbound (e : worker_env) (p : ptr) w :
  nc_ps w ≠ [] → poll_rc e = 5 → chan_ok e = true →
  let n := fresh (dom (nc_live (nc_ps_poll e w).2)) in
  ∃ w', process_body e p w = Some (Some n, w') ∧
    nc_ps w' = nc_ps w ++ [n] ∧
    nc_live w' !! n = Some (NcSession NULL NC_STATUS_RUNNING) ∧
    binding_of n w' = None ∧ ¬ bound n w' ∧
    heap w' = heap w ∧ sr_open w' = sr_open w ∧ dslock w' = dslock w ∧
    trace w' = trace w ++ [E_nc_ps_poll 5; E_nc_ps_accept_ssh_channel (Some n);
                           E_nc_ps_add_session (Some n)] ∧
    ∃ w1, nc_session_free (Some n) free_ds w' = Some w1 ∧
      trace w1 = trace w' ++ [E_nc_session_free n] ∧
      dslock w1 = dslock w' ∧ sr_open w1 = sr_open w' ∧ heap w1 = heap w'.
Proof.
  intros Hne Hrc Hch. cbv zeta.
  change (nc_live (nc_ps_poll e w).2) with (nc_live (mark_invalid (poll_invalid e) w)).
  unfold process_body, nc_ps_session_count.
  rewrite bool_decide_eq_true_2 by (destruct (nc_ps w); [contradiction | discriminate]).
  unfold nc_ps_poll, nc_ps_accept_ssh_channel. rewrite Hrc, Hch. cbn -[mark_invalid].
  set (n := fresh (dom (nc_live (mark_invalid (poll_invalid e) w)))). eexists. split; [reflexivity |]. cbn -[mark_invalid].
  assert (Hl : <[n := NcSession NULL NC_STATUS_RUNNING]>
                 (nc_live (mark_invalid (poll_invalid e) w)) !! n
               = Some (NcSession NULL NC_STATUS_RUNNING)) by apply lookup_insert_eq.
  split; [reflexivity |]. split; [exact Hl |].
  split; [unfold binding_of; cbn -[mark_invalid]; rewrite Hl; reflexivity |].
  split.
  { intros (sess & a & b & h & H1 & H2 & _). cbn -[mark_invalid] in H1. rewrite Hl in H1.
    injection H1 as <-. discriminate. }
  split; [reflexivity |]. split; [reflexivity |]. split; [reflexivity |].
  split; [rewrite <- !app_assoc; reflexivity |].
  unfold nc_session_free. cbn -[mark_invalid]. rewrite Hl. cbn -[mark_invalid].
  eexists. split; [reflexivity |]. cbn -[mark_invalid]. repeat split; reflexivity.
Qed.

End MoreDrain.

(** The poll structure of [w_two] is well formed. *)
Lemma w_two_ok : NoDup (nc_ps w_two) ∧ ∀ n : nat, n ∈ nc_ps w_two → session_ok n w_two.
Proof.
  split.
  - apply NoDup_cons. split; [| apply NoDup_singleton].
    rewrite list_elem_of_singleton. discriminate.
  - intros n Hn. apply elem_of_cons in Hn as [-> | Hn].
    + eexists. split; [reflexivity |]. cbn. eexists. split; reflexivity.
    + apply list_elem_of_singleton in Hn. subst n.
      eexists. split; [reflexivity |]. exact I.
Qed.

(** The thread leaves its loop on [w_two]: the running lock of session 7 is
    released, the startup lock stays with the freed session 8. *)
Lemma drain_releases_locks_witness :
  ∃ w', process_cleanup w_two = Some w' ∧
    running (dslock w') ≠ Some 7%nat ∧
    startup (dslock w') = Some 8%nat ∧ nc_live w' !! 8%nat = None.
Proof.
  destruct (drain_releases_locks w_two (proj1 w_two_ok) (proj2 w_two_ok))
    as (w' & Hpc & Hrel & _ & _ & Hstale & _).
  exists w'. split; [exact Hpc |]. split.
  - apply (Hrel 7%nat ltac:(left) ltac:(eexists; reflexivity) SR_DS_RUNNING).
  - apply (Hstale SR_DS_STARTUP 8%nat); [right; left | reflexivity | reflexivity].
Defined.

(** A status change on [w_two]: session 7 stays with its lock, session 8 is
    taken out and freed. *)
Lemma status_change_isolated_witness :
  ∃ w', process_body poll_status NULL w_two = Some (NULL, w') ∧
    7%nat ∈ nc_ps w' ∧ running (dslock w') = Some 7%nat ∧
    (8%nat ∉ nc_ps w') ∧ nc_live w' !! 8%nat = None.
Proof.
  destruct (status_change_isolated poll_status NULL w_two)
    as (w' & Hpb & Hrun & Hdead & _).
  - discriminate.
  - right. reflexivity.
  - exact (proj1 w_two_ok).
  - exact (proj2 w_two_ok).
  - exists w'. split; [exact Hpb |].
    destruct (Hrun 7%nat) as (H1 & _ & _ & H2); [left | reflexivity |].
    destruct (Hdead 8%nat) as (H3 & H4 & _); [right; left | reflexivity |].
    split; [exact H1 |]. split; [exact (H2 SR_DS_RUNNING eq_refl) |].
    split; [exact H3 | exact H4].
Defined.

(** A new SSH channel next to session 7 of [w_bound]. *)
Lemma ssh_channel_session_unbound_witness :
  ∃ (n : nat) (w' : world),
    process_body poll_channel NULL w_bound = Some (Some n, w') ∧
    nc_ps w' = [7%nat; n] ∧ binding_of n w' = None.
Proof.
  destruct (ssh_channel_session_unbound poll_channel NULL w_bound)
    as (w' & Hpb & Hps & _ & Hb & _).
  - discriminate.
  - reflexivity.
  - reflexivity.
  - eexists _, w'. split; [exact Hpb |]. split; [exact Hps | exact Hb].
Defined.

(** ** What the loop bodies leave alone *)

Section InLoop.

Implicit Types (w : world) (l : list nat).

Lemma in_loop_refl w : in_loop w w.
Proof. repeat split. exists []. split; [symmetry; apply app_nil_r | constructor]. Qed.

Lemma in_loop_trans w1 w2 w3 : in_loop w1 w2 → in_loop w2 w3 → in_loop w1 w3.
Proof.
  intros (Hc1 & Hq1 & evs1 & Ht1 & Ha1) (Hc2 & Hq2 & evs2 & Ht2 & Ha2).
  split; [congruence |]. split; [congruence |].
  exists (evs1 ++ evs2). split; [rewrite Ht2, Ht1, app_assoc; reflexivity |].
  apply Forall_app. split; assumption.
Qed.

Lemma in_loop_events w w' (evs : list event) :
  control w' = control w → quit w' = quit w → trace w' = trace w ++ evs →
  forallb (λ ev, negb (main_call ev)) evs = true → in_loop w w'.
Proof.
  intros Hc Hq Ht Ha. split; [exact Hc |]. split; [exact Hq |].
  exists evs. split; [exact Ht |].
  apply Forall_forall. intros ev Hev.
  rewrite forallb_forall in Ha. apply list_elem_of_In, Ha in Hev.
  destruct (main_call ev); [discriminate | reflexivity].
Qed.

Lemma free_ds_in_loop (p : ptr) w w' : free_ds p w = Some w' → in_loop w w'.
Proof.
  destruct p as [a |]; [| intros [= <-]; apply in_loop_refl].
  destruct (heap w !! a) as [b |] eqn:Hb; [| unfold free_ds; rewrite Hb; discriminate].
  destruct (free_ds_spec a b w Hb) as (w0 & Hf & Htr & _ & _ & _ & _ & _ & Hc & Hq).
  rewrite Hf. intros [= <-].
  apply (in_loop_events w w0 _ Hc Hq Htr).
  unfold close_events. destruct (srs b); reflexivity.
Qed.

Lemma nc_session_free_in_loop (s : ptr) w w' :
  nc_session_free s free_ds w = Some w' → in_loop w w'.
Proof.
  destruct s as [n |]; [| intros [= <-]; apply in_loop_refl].
  unfold nc_session_free. destruct (nc_live w !! n) as [sess |]; [| discriminate].
  cbn -[free_ds]. destruct (free_ds (data sess) w) as [w0 |] eqn:Hf; [| discriminate].
  cbn. intros [= <-]. apply (in_loop_trans w w0); [exact (free_ds_in_loop _ _ _ Hf) |].
  apply (in_loop_events w0 _ [E_nc_session_free n]); reflexivity.
Qed.

Lemma free_sessions_in_loop l : ∀ w w', free_sessions l free_ds w = Some w' → in_loop w w'.
Proof.
  induction l as [| n l IH]; intros w w'; cbn -[nc_session_free].
  - intros [= <-]. apply in_loop_refl.
  - destruct (nc_session_free (Some n) free_ds w) as [w1 |] eqn:Hf; [| discriminate].
    cbn -[nc_session_free]. intros Hfs.
    exact (in_loop_trans w w1 w' (nc_session_free_in_loop _ _ _ Hf) (IH w1 w' Hfs)).
Qed.

Lemma clear_invalid_in_loop l :
  ∀ w k w', clear_invalid l free_ds w = Some (k, w') → in_loop w w'.
Proof.
  induction l as [| n l IH]; intros w k w'; cbn -[nc_session_free].
  - intros [= <- <-]. apply in_loop_refl.
  - destruct (nc_live w !! n) as [sess |]; [| discriminate]. cbn -[nc_session_free].
    case_bool_decide.
    + destruct (nc_session_free (Some n) free_ds w) as [w1 |] eqn:Hf; [| discriminate].
      cbn -[nc_session_free]. intros Hci.
      exact (in_loop_trans w w1 w' (nc_session_free_in_loop _ _ _ Hf) (IH w1 k w' Hci)).
    + destruct (clear_invalid l free_ds w) as [[k1 w1] |] eqn:Hci; [| discriminate].
      cbn. intros [= <- <-]. exact (IH w k1 w1 Hci).
Qed.

Lemma nc_ps_clear_in_loop (all : Z) w w' :
  nc_ps_clear all free_ds w = Some w' → in_loop w w'.
Proof.
  unfold nc_ps_clear. set (w0 := emit (E_nc_ps_clear all) w).
  assert (H0 : in_loop w w0) by (apply (in_loop_events w w0 [E_nc_ps_clear all]); reflexivity).
  case_bool_decide.
  - destruct (free_sessions (nc_ps w0) free_ds w0) as [w1 |] eqn:Hfs; [| discriminate].
    cbn. intros [= <-]. apply (in_loop_trans w w0 _ H0).
    apply (in_loop_trans w0 w1); [exact (free_sessions_in_loop _ _ _ Hfs) |].
    apply (in_loop_events w1 _ []); try reflexivity. symmetry. apply app_nil_r.
  - destruct (clear_invalid (nc_ps w0) free_ds w0) as [[k w1] |] eqn:Hci; [| discriminate].
    cbn. intros [= <-]. apply (in_loop_trans w w0 _ H0).
    apply (in_loop_trans w0 w1); [exact (clear_invalid_in_loop _ _ _ _ Hci) |].
    apply (in_loop_events w1 _ []); try reflexivity. symmetry. apply app_nil_r.
Qed.

Lemma process_cleanup_in_loop w w' : process_cleanup w = Some w' → in_loop w w'.
Proof.
  unfold process_cleanup.
  destruct (nc_ps_clear 1 free_ds w) as [w1 |] eqn:Hc; [| discriminate].
  cbn. intros [= <-]. apply (in_loop_trans w w1); [exact (nc_ps_clear_in_loop _ _ _ Hc) |].
  apply (in_loop_events w1 _ [E_nc_thread_destroy]); reflexivity.
Qed.

Lemma process_body_in_loop (e : worker_env) (p p' : ptr) w w' :
  process_body e p w = Some (p', w') → in_loop w w'.
Proof.
  unfold process_body. case_bool_decide.
  2:{ intros [= <- <-]. apply (in_loop_events w _ [E_usleep 100]); reflexivity. }
  unfold nc_ps_poll. cbn -[nc_ps_clear mark_invalid].
  set (wp := emit _ (mark_invalid _ w)).
  assert (Hp : in_loop w wp)
    by (apply (in_loop_events w wp [E_nc_ps_poll (poll_rc e)]); reflexivity).
  destruct (bool_decide (poll_rc e = -1) || bool_decide (poll_rc e = 3)).
  - destruct (nc_ps_clear 0 free_ds wp) as [w1 |] eqn:Hc; [| discriminate].
    cbn. intros [= <- <-]. apply (in_loop_trans w wp _ Hp).
    apply (in_loop_trans wp w1); [exact (nc_ps_clear_in_loop _ _ _ Hc) |].
    apply (in_loop_events w1 _ [E_usleep 250]); reflexivity.
  - destruct (bool_decide (poll_rc e = 5)); [| intros [= <- <-]; exact Hp].
    unfold nc_ps_accept_ssh_channel. destruct (chan_ok e); cbn -[mark_invalid].
    + intros [= <- <-]. apply (in_loop_trans w wp _ Hp).
      eapply (in_loop_events wp _ [_; _]);
        [reflexivity | reflexivity | cbn; rewrite <- app_assoc; reflexivity | reflexivity].
    + intros [= <- <-]. apply (in_loop_trans w wp _ Hp).
      eapply (in_loop_events wp _ [_; _]);
        [destruct p; reflexivity | destruct p; reflexivity
        | destruct p; cbn; rewrite <- app_assoc; reflexivity | reflexivity].
Qed.

(** One iteration of the accept loop returns, with the flag, [quit] and the
    lock registry as they were. *)
Lemma accept_body_keeps (e : accept_env) w :
  ∃ w', accept_body e w = Some w' ∧
    control w' = control w ∧ quit w' = quit w ∧ dslock w' = dslock w.
Proof.
  destruct (decide (acc_rc e = 1)) as [Hrc | Hrc].
  2:{ exists (emit (E_nc_accept (acc_rc e) NULL) w). split; [| repeat split].
      unfold accept_body, nc_accept.
      rewrite (bool_decide_eq_false_2 _ Hrc). cbn.
      rewrite (bool_decide_eq_false_2 _ Hrc). reflexivity. }
  rewrite (accept_body_one _ _ Hrc). rewrite nc_accept_one.
  set (n := fresh (dom (nc_live w))). set (w1 := emit _ _).
  change ((1, Some n, w1).2) with w1.
  assert (Hn : nc_live w1 !! n = Some (NcSession NULL NC_STATUS_RUNNING))
    by (subst w1; cbn; apply lookup_insert_eq).
  destruct (connect_ds_cases (acc_bind e) n w1 _ Hn)
    as (r & w2 & Hcon & Hc & Hq & Hd & _ & Hcase).
  rewrite Hcon.
  destruct Hcase as [(-> & _ & _ & _ & Hnl & _) | (-> & _)]; cbn.
  - rewrite Hnl, Hn. cbn. eexists. split; [reflexivity |]. cbn. auto.
  - eexists. split; [reflexivity |]. cbn. auto.
Qed.

Lemma accept_body_in_loop (e : accept_env) w w' :
  accept_body e w = Some w' → in_loop w w'.
Proof.
  intros Hab.
  destruct (accept_body_keeps e w) as (w1 & Hab1 & Hc & Hq & _).
  rewrite Hab in Hab1. injection Hab1 as <-.
  destruct (accept_body_cases e w) as (w1 & Hab1 & Hcase).
  rewrite Hab in Hab1. injection Hab1 as <-.
  split; [exact Hc |]. split; [exact Hq |].
  destruct Hcase as [(_ & ->) | [(_ & _ & _ & _ & _ & bevs & Htr & Hall)
                                | (_ & w2 & _ & -> & _ & _ & _ & _ & Htr)]].
  - exists [E_nc_accept (acc_rc e) NULL]. split; [reflexivity | repeat constructor].
  - eexists. split; [exact Htr |]. constructor; [reflexivity |].
    apply Forall_app. split; [| repeat constructor].
    eapply Forall_impl; [exact Hall |]. intros ev Hev. destruct ev; try reflexivity;
      destruct Hev.
  - eexists. split; [cbn; rewrite Htr, <- app_assoc; reflexivity |]. repeat constructor.
Qed.

End InLoop.

(** ** The exit status *)

Section ExitStatus.

Implicit Types (s : sys) (w : world).

Lemma signal_handler_stop (sig : Z) w w' :
  signal_handler sig w = Returns w' →
  control w' ≠ LOOP_CONTINUE ∧ trace w' = trace w ∧ (control w' = LOOP_STOP → quit w' = 1).
Proof.
  unfold signal_handler.
  destruct (is_termination sig); [case_bool_decide |]; try discriminate.
  - intros [= <-]. cbn. repeat split; auto; discriminate.
  - destruct (is_restart sig); [| discriminate]. intros [= <-]. cbn.
    repeat split; auto; discriminate.
Qed.

Lemma in_loop_no_init w w' :
  in_loop w w' → E_server_init EXIT_FAILURE ∈ trace w' → E_server_init EXIT_FAILURE ∈ trace w.
Proof.
  intros (_ & _ & evs & -> & Hall) Hin. apply elem_of_app in Hin as [Hin | Hin]; [exact Hin |].
  rewrite Forall_forall in Hall. specialize (Hall _ Hin). discriminate.
Qed.

(** A step inside a loop body keeps [exit_inv]. *)
Lemma exit_inv_in_loop w w' (m m' : main_pc) (r : Z) (wp wp' : worker_pc) (p p' : ptr) :
  exit_inv (Sys w m r wp p) → in_loop w w' →
  m' ≠ M_cleanup → (m' = M_join → m = M_join) →
  joined (Sys w' m' r wp' p') →
  exit_inv (Sys w' m' r wp' p').
Proof.
  intros (H1 & H6 & H2 & H3 & H4 & Hj) Hin Hm Hmj Hj'.
  pose proof Hin as (Hc & Hq & _). cbn in *.
  split; [exact H1 |]. split; [| split; [| split; [| split]]]; cbn.
  - intros Hi. apply H6. exact (in_loop_no_init w w' Hin Hi).
  - rewrite Hc, Hq. exact H2.
  - intros Hmm. rewrite Hc. apply H3, Hmj, Hmm.
  - intros Hmm. contradiction.
  - exact Hj'.
Qed.

Lemma step_exit_inv (t : tick) s :
  exit_inv s →
  match step t s with
  | Running s' => exit_inv s'
  | Exited st w => exit_ok st w
  | Undefined => True
  end.
Proof.
  intros Hinv. pose proof Hinv as (H1 & H6 & H2 & H3 & H4 & Hj).
  destruct s as [w m r wp p]. unfold joined in Hj. cbn in *.
  destruct t as [sig | e | e]; cbn.
  - destruct (signal_handler sig w) as [w' | st] eqn:Hs; cbn.
    + destruct (signal_handler_stop sig w w' Hs) as (Hc & Htr & Hq).
      unfold exit_inv, joined. cbn. rewrite Htr.
      split; [exact H1 |]. split; [exact H6 |]. split; [exact Hq |].
      split; [intros _; exact Hc |]. split; [| exact Hj].
      intros Hm Hr. split; [exact Hc | apply (H4 Hm Hr)].
    + rewrite (signal_handler_exit_status sig w st Hs).
      split; [right; reflexivity | discriminate].
  - unfold main. cbn. destruct m.
    + destruct (init_ok e); cbn;
        [change (bool_decide (EXIT_SUCCESS ≠ 0)) with false
        | change (bool_decide (EXIT_FAILURE ≠ 0)) with true]; cbn;
        unfold exit_inv, joined; cbn.
      * split; [exact H1 |]. split; [| split; [exact H2 |]].
        -- rewrite !elem_of_app, !list_elem_of_singleton.
           intros [[Hi | Hi] | Hi]; [exact (H6 Hi) | discriminate | discriminate].
        -- repeat split; try discriminate. intros [? | ?]; discriminate.
      * split; [right; reflexivity |]. split; [reflexivity |]. split; [exact H2 |].
        repeat split; try discriminate. intros _. apply Hj. left. reflexivity.
    + case_bool_decide as Hc; cbn; unfold exit_inv, joined; cbn;
        (split; [exact H1 |]); (split; [exact H6 |]); (split; [exact H2 |]);
        repeat split; try discriminate; auto; intros [? | ?]; discriminate.
    + destruct (accept_body (m_accept e) w) as [w' |] eqn:Hab; [| exact I].
      apply (exit_inv_in_loop w w' M_accept_body M_accept_cond r wp wp p p Hinv
               (accept_body_in_loop _ _ _ Hab)); try discriminate.
      unfold joined. cbn. intros [? | ?]; discriminate.
    + case_bool_decide as Hw; cbn; [| exact Hinv].
      unfold exit_inv, joined. cbn.
      split; [exact H1 |]. split; [| split; [exact H2 |]].
      * rewrite elem_of_app, list_elem_of_singleton.
        intros [Hi | Hi]; [exact (H6 Hi) | discriminate].
      * split; [discriminate |]. split; [| auto].
        intros _ _. split; [apply H3; reflexivity | apply last_snoc].
    + case_bool_decide as Hc; cbn.
      * unfold exit_inv, joined. cbn.
        split; [exact H1 |]. split; [| split; [exact H2 |]].
        -- rewrite elem_of_app, list_elem_of_singleton.
           intros [Hi | Hi]; [exact (H6 Hi) | discriminate].
        -- repeat split; try discriminate. intros _. apply Hj. right. reflexivity.
      * split; [exact H1 |]. intros Hr. cbn in Hc.
        destruct (H4 eq_refl Hr) as [Hcc Hlast].
        assert (Hstop : control w = LOOP_STOP) by (destruct (control w); congruence).
        split; [exact Hstop |]. split; [exact (H2 Hstop) |]. split.
        -- apply last_Some in Hlast as [tr Htr]. exists tr. cbn. rewrite Htr.
           rewrite <- app_assoc. reflexivity.
        -- cbn. rewrite elem_of_app, list_elem_of_singleton.
           intros [Hi | Hi]; [| discriminate].
           specialize (H6 Hi). rewrite Hr in H6. discriminate.
  - unfold process_loop. cbn. destruct wp; try exact Hinv.
    + case_bool_decide as Hc; cbn.
      * unfold exit_inv, joined. cbn.
        split; [exact H1 |]. split; [exact H6 |]. split; [exact H2 |].
        split; [exact H3 |]. split; [exact H4 |].
        intros Hm. destruct (Hj Hm); discriminate.
      * destruct (process_cleanup w) as [w' |] eqn:Hpc; [| exact I].
        apply (exit_inv_in_loop w w' m m r W_cond W_done p p Hinv
                 (process_cleanup_in_loop _ _ Hpc)); auto.
        -- intros ->. destruct Hj as [? | ?]; [right; reflexivity | |]; discriminate.
        -- unfold joined. cbn. auto.
    + destruct (process_body e p w) as [[p' w'] |] eqn:Hpb; [| exact I].
      apply (exit_inv_in_loop w w' m m r W_body W_cond p p' Hinv
               (process_body_in_loop _ _ _ _ _ Hpb)); auto.
      * intros ->. destruct Hj as [? | ?]; [right; reflexivity | |]; discriminate.
      * unfold joined. cbn. intros Hm. destruct (Hj Hm); discriminate.
Qed.

Lemma boot_exit_inv : exit_inv boot.
Proof.
  unfold exit_inv, joined. cbn. split; [left; reflexivity |].
  split; [intros H; inversion H |]. repeat split; try discriminate. auto.
Qed.

Lemma run_exited_split (ts : list tick) :
  ∀ s (st : Z) w, run ts s = Exited st w →
    ∃ (ts1 : list tick) (t : tick) (ts2 : list tick) (s1 : sys),
      ts = ts1 ++ t :: ts2 ∧ run ts1 s = Running s1 ∧ step t s1 = Exited st w.
Proof.
  induction ts as [| t ts IH]; intros s st w; cbn; [discriminate |].
  destruct (step t s) as [s1 | st1 w1 |] eqn:Hs; [| | discriminate].
  - intros Hr. destruct (IH s1 st w Hr) as (ts1 & t' & ts2 & s2 & -> & Hr1 & Hs2).
    exists (t :: ts1), t', ts2, s2. cbn. rewrite Hs. auto.
  - intros [= -> ->]. exists [], t, ts, s. auto.
Qed.

Lemma run_exit_inv (ts : list tick) :
  ∀ s s', exit_inv s → run ts s = Running s' → exit_inv s'.
Proof.
  induction ts as [| t ts IH]; intros s s' Hinv; cbn; [intros [= <-]; exact Hinv |].
  pose proof (step_exit_inv t s Hinv) as Hs.
  destruct (step t s) as [s1 | |]; [| discriminate | discriminate].
  apply IH, Hs.
Qed.

(** While [server_init] succeeds, [ret] keeps its value. *)
Lemma step_ret (t : tick) s s' :
  init_succeeds t = true → step t s = Running s' → ret s' = ret s.
Proof.
  destruct t as [sig | e | e]; cbn.
  - intros _. destruct (signal_handler sig (wld s)); intros [= <-]; reflexivity.
  - intros Hi. unfold main. rewrite Hi. destruct (mpc s); cbn.
    + change (bool_decide (EXIT_SUCCESS ≠ 0)) with false. cbn. intros [= <-]. reflexivity.
    + case_bool_decide; intros [= <-]; reflexivity.
    + destruct (accept_body (m_accept e) (wld s)); [| discriminate]. intros [= <-]. reflexivity.
    + case_bool_decide; intros [= <-]; reflexivity.
    + case_bool_decide; [| discriminate]. intros [= <-]. reflexivity.
  - intros _. unfold process_loop. destruct (wpc s); try (intros [= <-]; reflexivity).
    + case_bool_decide; [intros [= <-]; reflexivity |].
      destruct (process_cleanup (wld s)); [| discriminate]. intros [= <-]. reflexivity.
    + destruct (process_body e (w_ncs s) (wld s)) as [[p' w'] |]; [| discriminate].
      intros [= <-]. reflexivity.
Qed.

Lemma run_ret (ts : list tick) :
  ∀ s s', forallb init_succeeds ts = true → run ts s = Running s' → ret s' = ret s.
Proof.
  induction ts as [| t ts IH]; intros s s'; cbn; [intros _ [= <-]; reflexivity |].
  intros [Ht Hts]%andb_prop.
  destruct (step t s) as [s1 | |] eqn:Hs; [| discriminate | discriminate].
  intros Hr. rewrite (IH s1 s' Hts Hr). exact (step_ret t s s1 Ht Hs).
Qed.

(** X11: what the exit status tells, for the part of [main] from the label
    [restart] on (the command line has been processed, the PID file written
    and the handlers installed) and for the executions in which every
    [server_init] succeeds and every SSH channel reported is accepted, under
    any interleaving of signals and the two threads.  A process that ends,
    ends in one of two ways.  With EXIT_SUCCESS: [main] returned from its
    cleanup, the flag is LOOP_STOP and [quit] is set, and [pthread_join] was
    the call right before the cleanup.  With EXIT_FAILURE: [signal_handler]
    called [exit], on a termination signal with [quit] already set or on a
    signal of neither class.  ([pthread_create] is taken to start the
    thread; [main] does not look at its result.) *)
Theorem exit_status_meaning (ts : list tick) (st : Z) (w : world) :
  forallb init_succeeds ts = true → forallb channel_accepted ts = true →
  run ts boot = Exited st w →
  (st = EXIT_SUCCESS ∧
   control w = LOOP_STOP ∧ quit w = 1 ∧
   (∃ tr, trace w = tr ++ [E_pthread_join; E_cleanup]) ∧
   ∃ (ts1 : list tick) (e : main_env) (ts2 : list tick) (s : sys),
     ts = ts1 ++ T_main e :: ts2 ∧ run ts1 boot = Running s ∧
     mpc s = M_cleanup ∧ w = emit E_cleanup (wld s))
  ∨
  (st = EXIT_FAILURE ∧
   ∃ (ts1 : list tick) (sig : Z) (ts2 : list tick) (s : sys),
     ts = ts1 ++ T_signal sig :: ts2 ∧ run ts1 boot = Running s ∧
     signal_handler sig (wld s) = Exits EXIT_FAILURE ∧ w = wld s ∧
     ((sig ∈ termination_class ∧ quit w ≠ 0) ∨
      ((sig ∉ termination_class) ∧ (sig ∉ restart_class)))).
Proof.
  intros Hinit _ Hrun.
  destruct (run_exited_split ts boot st w Hrun) as (ts1 & t & ts2 & s & -> & Hr1 & Hs).
  rewrite forallb_app in Hinit. apply andb_prop in Hinit as [Hi1 _].
  pose proof (run_exit_inv ts1 boot s boot_exit_inv Hr1) as Hinv.
  pose proof (run_ret ts1 boot s Hi1 Hr1) as Hret.
  change (ret boot) with EXIT_SUCCESS in Hret.
  pose proof (step_exit_inv t s Hinv) as Hok. rewrite Hs in Hok.
  destruct Hinv as (_ & _ & _ & _ & _ & Hj).
  destruct t as [sig | e | e]; cbn in Hs.
  - right. destruct (signal_handler sig (wld s)) as [w' | st'] eqn:Hsh; [discriminate |].
    injection Hs as <- <-.
    pose proof (signal_handler_exit_status sig (wld s) st' Hsh) as ->.
    split; [reflexivity |]. exists ts1, sig, ts2, s.
    split; [reflexivity |]. split; [exact Hr1 |]. split; [exact Hsh |].
    split; [reflexivity |].
    unfold signal_handler in Hsh.
    destruct (is_termination sig) eqn:Et.
    + left. split; [apply is_termination_class; exact Et |].
      case_bool_decide as Hq; [discriminate | exact Hq].
    + right. destruct (is_restart sig) eqn:Er; [discriminate |].
      split; intros Hin.
      * rewrite (termination_class_inv _ Hin) in Et. discriminate.
      * destruct (restart_class_inv _ Hin) as [_ Er']. rewrite Er' in Er. discriminate.
  - left. unfold main in Hs. destruct (mpc s) eqn:Hm.
    + destruct (server_init (init_ok e) (wld s)). case_bool_decide; discriminate.
    + case_bool_decide; discriminate.
    + destruct (accept_body (m_accept e) (wld s)); discriminate.
    + case_bool_decide; discriminate.
    + case_bool_decide; [discriminate |]. injection Hs as <- <-.
      destruct Hok as [_ Hok]. destruct (Hok Hret) as (Hc & Hq & Htr & _).
      split; [exact Hret |]. split; [exact Hc |]. split; [exact Hq |].
      split; [exact Htr |]. exists ts1, e, ts2, s.
      split; [reflexivity |]. split; [exact Hr1 |]. split; [exact Hm | reflexivity].
  - exfalso. unfold process_loop in Hs. destruct (wpc s); try discriminate.
    + case_bool_decide; [discriminate |]. destruct (process_cleanup (wld s)); discriminate.
    + destruct (process_body e (w_ncs s) (wld s)) as [[p' w'] |]; discriminate.
Qed.

(** The run [graceful_run] ends with EXIT_SUCCESS; a second termination
    signal right after the first ends the process with EXIT_FAILURE. *)
Lemma exit_status_meaning_witness :
  (run graceful_run boot = Exited EXIT_SUCCESS w_exited ∧
   control w_exited = LOOP_STOP ∧ quit w_exited = 1) ∧
  ∃ w, run [T_main main_ok; T_signal SIGTERM; T_signal SIGINT] boot = Exited EXIT_FAILURE w ∧
       quit w ≠ 0.
Proof.
  split.
  - assert (Hrun : run graceful_run boot = Exited EXIT_SUCCESS w_exited)
      by (vm_compute; reflexivity).
    split; [exact Hrun |].
    destruct (exit_status_meaning graceful_run EXIT_SUCCESS w_exited eq_refl eq_refl Hrun)
      as [(_ & Hc & Hq & _) | (Hst & _)]; [auto | discriminate Hst].
  - eexists. split; [vm_compute; reflexivity |]. discriminate.
Defined.

End ExitStatus.

(** ** The accept loop and the idle thread *)

Section MoreLoops.

Implicit Types (s : sys) (w : world).

(** X12: one iteration of the accept loop always returns (it never touches
    a freed object), whatever [nc_accept] returns and however the binding
    goes.  It leaves the flag, [quit] and the lock registry alone; the poll
    structure is what it was or has the new session appended; the sessions,
    bindings and sysrepo sessions that existed are still there, unchanged.
    A return value of [nc_accept] other than 1, the error -1 as much as the
    timeout 0, changes nothing but the trace of calls. *)
Theorem accept_iteration_frame (e : accept_env) w :
  ∃ w', accept_body e w = Some w' ∧
    control w' = control w ∧ quit w' = quit w ∧ dslock w' = dslock w ∧
    (nc_ps w' = nc_ps w ∨ nc_ps w' = nc_ps w ++ [fresh (dom (nc_live w))]) ∧
    (∀ (m : nat) (sess : nc_session), nc_live w !! m = Some sess → nc_live w' !! m = Some sess) ∧
    (∀ (a : nat) (b : np2_sessions), heap w !! a = Some b → heap w' !! a = Some b) ∧
    sr_open w ⊆ sr_open w' ∧
    (acc_rc e ≠ 1 →
       same_but_trace w w' ∧ trace w' = trace w ++ [E_nc_accept (acc_rc e) NULL]).
Proof.
  destruct (accept_body_keeps e w) as (w' & Hab & Hc & Hq & Hd).
  exists w'. split; [exact Hab |]. split; [exact Hc |]. split; [exact Hq |].
  split; [exact Hd |].
  destruct (accept_body_cases e w) as (w1 & Hab1 & Hcase).
  rewrite Hab in Hab1. injection Hab1 as <-.
  destruct Hcase as [(Hrc & ->) | [(Hrc & Hps & Hh & Ho & Hl & _) | (Hrc & w2 & _ & -> & Hps & Hh & Ho & Hl & _)]].
  - cbn. split; [left; reflexivity |]. split; [auto |]. split; [auto |].
    split; [reflexivity |]. intros _. split; [| reflexivity].
    unfold same_but_trace. cbn. auto 10.
  - rewrite Hps, Hh, Ho, Hl. split; [left; reflexivity |]. split; [auto |].
    split; [auto |]. split; [reflexivity |]. intros Hne. contradiction.
  - cbn. rewrite Hps, Hh, Ho, Hl. split; [right; reflexivity |].
    split; [| split; [| split]].
    + intros m sess Hm. rewrite lookup_insert_ne; [exact Hm |].
      intros <-. rewrite fresh_live_None in Hm. discriminate.
    + intros a b Ha. rewrite lookup_insert_ne; [exact Ha |].
      intros <-. rewrite fresh_heap_None in Ha. discriminate.
    + apply union_subseteq_r.
    + intros Hne. contradiction.
Qed.

(** X13: with no session in the poll structure and the flag at
    LOOP_CONTINUE, the processing thread on its own only sleeps: after any
    number of its steps the process is still running, nothing has changed but
    the trace, and the trace has grown by calls of [usleep(100)] only, at most
    one per step; [nc_ps_poll] is not called. *)
Theorem worker_idle (es : list worker_env) s :
  nc_ps (wld s) = [] → control (wld s) = LOOP_CONTINUE →
  ∃ (s' : sys) (k : nat),
    run (T_worker <$> es) s = Running s' ∧
    same_but_trace (wld s) (wld s') ∧
    mpc s' = mpc s ∧ ret s' = ret s ∧ w_ncs s' = w_ncs s ∧
    (wpc s = W_none ∨ wpc s = W_done → wpc s' = wpc s) ∧
    trace (wld s') = trace (wld s) ++ replicate k (E_usleep 100) ∧
    (k ≤ length es)%nat.
Proof.
  revert s. induction es as [| e es IH]; intros s Hps Hc.
  - exists s, 0%nat. cbn. rewrite app_nil_r. unfold same_but_trace. auto 15.
  - rewrite fmap_cons. destruct s as [w m r wp p]. cbn in Hps, Hc.
    cbn [run step]. unfold process_loop. cbn [wpc wld mpc ret w_ncs].
    destruct wp.
    + destruct (IH (Sys w m r W_none p) Hps Hc) as (s' & k & Hrun & H).
      exists s', k. split; [exact Hrun |]. cbn in *.
      destruct H as (Hs & ? & ? & ? & ? & ? & ?).
      split; [exact Hs |]. repeat split; auto; lia.
    + rewrite (bool_decide_eq_true_2 _ Hc).
      destruct (IH (Sys w m r W_body p) Hps Hc) as (s' & k & Hrun & H).
      exists s', k. split; [exact Hrun |]. cbn in *.
      destruct H as (Hs & ? & ? & ? & ? & ? & ?).
      split; [exact Hs |]. repeat split; auto; try lia.
      intros [? | ?]; discriminate.
    + unfold process_body, nc_ps_session_count. rewrite Hps. cbn [length].
      rewrite bool_decide_eq_false_2 by (intros Hne; apply Hne; reflexivity).
      destruct (IH (Sys (usleep 100 w) m r W_cond p) Hps Hc) as (s' & k & Hrun & H).
      exists s', (S k). split; [exact Hrun |]. cbn in *.
      destruct H as (Hs & ? & ? & ? & ? & Htr & ?).
      split; [exact Hs |]. repeat split; auto; try lia.
      * intros [? | ?]; discriminate.
      * rewrite Htr, <- app_assoc. reflexivity.
    + destruct (IH (Sys w m r W_done p) Hps Hc) as (s' & k & Hrun & H).
      exists s', k. split; [exact Hrun |]. cbn in *.
      destruct H as (Hs & ? & ? & ? & ? & ? & ?).
      split; [exact Hs |]. repeat split; auto; lia.
Qed.

Lemma accept_iteration_frame_witness :
  ∃ w', accept_body accept_error (wld s_idle) = Some w' ∧
        same_but_trace (wld s_idle) w' ∧
        trace w' = trace (wld s_idle) ++ [E_nc_accept (-1) NULL].
Proof.
  destruct (accept_iteration_frame accept_error (wld s_idle))
    as (w' & Hab & _ & _ & _ & _ & _ & _ & _ & H).
  exists w'. split; [exact Hab |]. apply H. discriminate.
Defined.

Lemma worker_idle_witness :
  ∃ (s' : sys) (k : nat),
    run (T_worker <$> [poll_timeout; poll_fails; poll_status]) s_idle = Running s' ∧
    trace (wld s') = trace (wld s_idle) ++ replicate k (E_usleep 100) ∧ (k ≤ 3)%nat.
Proof.
  destruct (worker_idle [poll_timeout; poll_fails; poll_status] s_idle eq_refl eq_refl)
    as (s' & k & Hrun & _ & _ & _ & _ & _ & Htr & Hk).
  exists s', k. auto.
Defined.

End MoreLoops.
